(** * Bodhi stacks service: a shallow embedding of [bodhi/services/stacks.py]

    The views of the service ([query_stacks], [save_stack], [delete_stack])
    are embedded as functions over an explicit request state: the rows of the
    [stacks] table as the database session shows them, the objects added to
    the session and not yet flushed, the cornice error list with its status,
    and the messages handed to [notifications.publish]. The calls of the
    logger change nothing of this state and are left out. *)

From Stdlib Require Import List String Ascii ZArith Lia Bool.
From Stdlib Require Import Sorting.Mergesort Sorting.Sorted Sorting.Permutation Orders.
Import ListNotations.
Local Open Scope string_scope.

(* ------------------------------------------------------------------ *)
(** ** Python truthiness and membership *)

(** [if l:] for a list. *)
Definition truthy_list {A : Type} (l : list A) : bool :=
  match l with
  | [] => false
  | _ :: _ => true
  end.

(** [x in l], for entities that are referred to by their unique name. *)
Definition mem (x : string) (l : list string) : bool :=
  existsb (String.eqb x) l.

(* ------------------------------------------------------------------ *)
(** ** Data model *)

(** A user as the request carries it: its name and the names of its groups. *)
Record User := mkUser {
  user_name : string;
  user_groups : list string
}.

(** The three many-to-many relationships of a Stack. *)
Inductive Relationship := Packages | Users | Groups.

Module Stack.

(** A row of the [stacks] table with its relationship collections.
    Packages, users and groups are referred to by name, which is their
    unique key. *)
Record t := mk {
  name : string;
  description : option string;
  packages : list string;
  users : list string;
  groups : list string
}.

Definition eq_dec (a b : t) : {a = b} + {a <> b}.
Proof.
  repeat decide equality.
Defined.

Definition eqb (a b : t) : bool := if eq_dec a b then true else false.

(** Modelled from the spec: [Stack.get] of bodhi.models (not part of this
    service's file): "Fetch the Stack by name", the Repository's
    [get(name)]; [None] when there is no such stack. *)
Definition get (n : string) (table : list t) : option t :=
  find (fun s => name s =? n) table.

Definition set_description (d : string) (s : t) : t :=
  mk (name s) (Some d) (packages s) (users s) (groups s).

Definition rel (r : Relationship) (s : t) : list string :=
  match r with
  | Packages => packages s
  | Users => users s
  | Groups => groups s
  end.

Definition set_rel (r : Relationship) (l : list string) (s : t) : t :=
  match r with
  | Packages => mk (name s) (description s) l (users s) (groups s)
  | Users => mk (name s) (description s) (packages s) l (groups s)
  | Groups => mk (name s) (description s) (packages s) (users s) l
  end.

End Stack.

(** The validated body of a POST to [/stacks/]. *)
Record SaveData := mkSaveData {
  data_name : string;
  data_description : option string;
  data_packages : list string;
  data_users : list string;
  data_groups : list string
}.

Definition data_rel (r : Relationship) (data : SaveData) : list string :=
  match r with
  | Packages => data_packages data
  | Users => data_users data
  | Groups => data_groups data
  end.

(** An entry of [request.errors]: location, name, description. *)
Definition Error : Type := string * string * string.

(** [HTTPForbidden.code] *)
Definition HTTPForbidden_code : Z := 403.
(** [HTTPNotFound.code] *)
Definition HTTPNotFound_code : Z := 404.

(** What a view reads and writes besides its arguments. *)
Record Request := mkRequest {
  db_table : list Stack.t;           (* rows the session's queries see *)
  db_pending : list Stack.t;         (* added to the session, not flushed *)
  errors : list Error;               (* request.errors *)
  errors_status : option Z;          (* request.errors.status *)
  published : list (string * Stack.t) (* notifications.publish(topic, stack) *)
}.

(* ------------------------------------------------------------------ *)
(** ** A state monad for views *)

Definition View (A : Type) : Type := Request -> A * Request.

Definition ret {A : Type} (a : A) : View A := fun r => (a, r).

Definition bind {A B : Type} (m : View A) (k : A -> View B) : View B :=
  fun r => let (a, r') := m r in k a r'.

Declare Scope view_scope.
Delimit Scope view_scope with view.
Notation "x <- m ;; k" := (bind m (fun x => k))
  (at level 61, m at next level, right associativity) : view_scope.
Notation "m ;; k" := (bind m (fun _ => k))
  (at level 61, right associativity) : view_scope.
Local Open Scope view_scope.

(** [db.add(obj)] *)
Definition db_add (s : Stack.t) : View unit := fun r =>
  (tt, mkRequest (db_table r) (db_pending r ++ [s]) (errors r)
         (errors_status r) (published r)).

(** [db.flush()]: the pending objects become rows. *)
Definition db_flush : View unit := fun r =>
  (tt, mkRequest (db_table r ++ db_pending r) [] (errors r)
         (errors_status r) (published r)).

(** [Stack.get(name, db)] *)
Definition db_get (n : string) : View (option Stack.t) := fun r =>
  (Stack.get n (db_table r), r).

(** The row of the stack named as [s] takes the attributes of [s]. *)
Fixpoint replace_row (s : Stack.t) (rows : list Stack.t) : list Stack.t :=
  match rows with
  | [] => []
  | r :: rows' =>
      if Stack.name r =? Stack.name s then s :: rows'
      else r :: replace_row s rows'
  end.

(** [Package.stack] (line 81) is single-valued: a package belongs to one
    stack at most, and a stack that takes a package takes it from the stack
    that had it. [release s row] is a row of another stack without the
    packages that [s] holds. *)
Definition release (s : Stack.t) (row : Stack.t) : Stack.t :=
  if Stack.name row =? Stack.name s then row
  else Stack.set_rel Packages
         (filter (fun p => negb (mem p (Stack.packages s))) (Stack.packages row))
         row.

(** The rows after the attribute writes on [s]: the row of [s] takes its
    attributes, the other rows give up the packages it holds. *)
Definition write_rows (s : Stack.t) (rows : list Stack.t) : list Stack.t :=
  replace_row s (map (release s) rows).

(** A stack fetched from the session is the row itself: attribute writes on
    it are what the session's later queries and the commit see. *)
Definition db_write (s : Stack.t) : View unit := fun r =>
  (tt, mkRequest (write_rows s (db_table r)) (db_pending r) (errors r)
         (errors_status r) (published r)).

(** [request.db.delete(stack)] *)
Definition db_delete (s : Stack.t) : View unit := fun r =>
  (tt, mkRequest (filter (fun x => negb (Stack.name x =? Stack.name s)) (db_table r))
         (db_pending r) (errors r) (errors_status r) (published r)).

(** [request.errors.add(location, name, description)] *)
Definition errors_add (location nm descr : string) : View unit := fun r =>
  (tt, mkRequest (db_table r) (db_pending r) (errors r ++ [(location, nm, descr)])
         (errors_status r) (published r)).

(** [request.errors.status = code] *)
Definition errors_set_status (code : Z) : View unit := fun r =>
  (tt, mkRequest (db_table r) (db_pending r) (errors r) (Some code) (published r)).

(** Modelled from the spec: [notifications.publish] of bodhi.notifications,
    which is not part of this service's file: "publish(topic, message),
    fire-and-forget". The message of
    [notifications.publish(topic=topic, msg=dict(stack=stack))] carries the
    stack as it is when it is published. *)
Definition publish (topic : string) (s : Stack.t) : View unit := fun r =>
  (tt, mkRequest (db_table r) (db_pending r) (errors r) (errors_status r)
         (published r ++ [(topic, s)])).

(* ------------------------------------------------------------------ *)
(** ** save_stack *)

(** Lines 108-113: fetch or create the stack. *)
Definition fetch_or_create (data : SaveData) (user : User) : View Stack.t :=
  stack <- db_get (data_name data) ;;
  match stack with
  | Some s => ret s
  | None =>
      let s := Stack.mk (data_name data) None [] [user_name user] [] in
      db_add s ;;
      db_flush ;;
      ret s
  end.

(** Lines 116-122: [user in stack.users], else the [for group in user.groups]
    loop that breaks at the first group found in [stack.groups]; the loop's
    [else] branch (no break) is the [false] here. *)
Definition is_owner (user : User) (stack : Stack.t) : bool :=
  if mem (user_name user) (Stack.users stack) then true
  else existsb (fun group => mem group (Stack.groups stack)) (user_groups user).

(** Lines 115-130: [true] when the view goes on to line 132. *)
Definition may_modify (user : User) (stack : Stack.t) : bool :=
  if truthy_list (Stack.users stack) || truthy_list (Stack.groups stack)
  then is_owner user stack
  else true.

(** The description of the error of lines 127-128. *)
Definition no_privileges_message (user : User) (stack : Stack.t) : string :=
  user_name user ++ " does not have privileges to modify the "
    ++ Stack.name stack ++ " stack".

Section SaveStack.

(** [Stack.update_relationship] belongs to bodhi.models. What it makes of
    a relationship collection, given the items of the request, is a
    parameter of the view: current collection, requested items, new
    collection. *)
Variable merge : list string -> list string -> list string.

(** [stack.update_relationship(rel, Model, data, db)] *)
Definition update_relationship (r : Relationship) (data : SaveData)
    (stack : Stack.t) : Stack.t :=
  Stack.set_rel r (merge (Stack.rel r stack) (data_rel r data)) stack.

(** Lines 132-139: the attribute writes of a save. *)
Definition apply_save (data : SaveData) (stack : Stack.t) : Stack.t :=
  let stack1 :=
    (* [if desc:] fails for [None] and for the empty string *)
    match data_description data with
    | Some desc => if desc =? "" then stack else Stack.set_description desc stack
    | None => stack
    end in
  let stack2 := update_relationship Packages data stack1 in
  let stack3 := update_relationship Users data stack2 in
  update_relationship Groups data stack3.

(** The view: [None] is the bare [return] of line 130, [Some stack] the
    [dict(stack=stack)] of line 144. *)
Definition save_stack (data : SaveData) (user : User) : View (option Stack.t) :=
  stack <- fetch_or_create data user ;;
  if may_modify user stack then
    let stack' := apply_save data stack in
    db_write stack' ;;
    publish "stack.save" stack' ;;
    ret (Some stack')
  else
    errors_add "body" "name" (no_privileges_message user stack) ;;
    errors_set_status HTTPForbidden_code ;;
    ret None.

End SaveStack.

(** Modelled from the spec: [Stack.update_relationship] of bodhi.models,
    which is not part of this service's file. "The caller supplies the
    complete desired set for each relationship; the controller reconciles
    this against the current associated set by adding newly-referenced
    entities and removing no-longer-referenced ones":
    [reconcile(current, desired) -> (toAdd, toRemove)]. *)
Definition reconcile (current desired : list string) : list string * list string :=
  (filter (fun x => negb (mem x current)) desired,
   filter (fun x => negb (mem x desired)) current).

(** Modelled from the spec: the reconciliation applied to the collection,
    additions first, then removals. *)
Definition reconciled (current desired : list string) : list string :=
  let (toAdd, toRemove) := reconcile current desired in
  filter (fun x => negb (mem x toRemove)) (current ++ toAdd).

(** Two collections hold the same entities. *)
Definition same_set (l1 l2 : list string) : Prop :=
  forall x, In x l1 <-> In x l2.

(** Number of rows of the table with a given name. *)
Definition count_named (n : string) (table : list Stack.t) : nat :=
  List.length (filter (fun s => Stack.name s =? n) table).

(** The two ways [save_stack] ends, from the state [r1] reached after the
    stack [s] was fetched or created. *)
Definition saved (s' : Stack.t) (r1 : Request) : option Stack.t * Request :=
  (Some s',
   mkRequest (write_rows s' (db_table r1)) (db_pending r1) (errors r1)
     (errors_status r1) (published r1 ++ [("stack.save", s')])).

Definition refused (user : User) (s : Stack.t) (r1 : Request)
  : option Stack.t * Request :=
  (None,
   mkRequest (db_table r1) (db_pending r1)
     (errors r1 ++ [("body", "name", no_privileges_message user s)])
     (Some HTTPForbidden_code) (published r1)).

(* ------------------------------------------------------------------ *)
(** ** delete_stack *)

(** An effect of a view on what lies outside it. *)
Inductive Effect :=
| Publish (topic : string) (stack : Stack.t)   (* notifications.publish *)
| DbDelete (stack : Stack.t).                  (* request.db.delete *)

(** A view whose body is a sequence of effects and a return. The sequence
    is kept as it is written, so that the order of the effects can be
    stated. *)
Record Program (A : Type) := mkProgram {
  effects : list Effect;
  result : A
}.

Arguments mkProgram {A}.
Arguments effects {A}.
Arguments result {A}.

Definition perform (e : Effect) : View unit :=
  match e with
  | Publish topic stack => publish topic stack
  | DbDelete stack => db_delete stack
  end.

Fixpoint perform_all (es : list Effect) : View unit :=
  match es with
  | [] => ret tt
  | e :: es' => perform e ;; perform_all es'
  end.

(** Running a program: its effects one after the other, then its return. *)
Definition run {A : Type} (p : Program A) : View A :=
  perform_all (effects p) ;; ret (result p).

Definition run_on {A : Type} (p : Program A) : Request -> A * Request := run p.

Coercion run : Program >-> View.
Coercion run_on : Program >-> Funclass.

(** The view: [request.validated['stack']] is its argument, the value of
    [dict(status=u'success')] its result; lines 151 and 152 are its
    effects. *)
Definition delete_stack (stack : Stack.t) : Program string :=
  mkProgram [Publish "stack.delete" stack; DbDelete stack] "success".

(** Modelled from the spec: [validate_stack] of bodhi.validators, which is
    not part of this service's file: it "resolves a name into a Stack (404
    if missing)" and runs before the view. *)
Definition validate_stack (n : string) : View (option Stack.t) :=
  stack <- db_get n ;;
  match stack with
  | Some s => ret (Some s)
  | None => errors_set_status HTTPNotFound_code ;; ret None
  end.

(** ** The routes *)

Section Routes.

(** [bodhi.security.packagers_allowed_acl] is not part of this service's
    file. The POST route of [/stacks/] (line 100) and the DELETE route of
    [/stacks/{name}] (line 147) name it, and only it, as their ACL: whether
    it admits a caller is a parameter of both routes. *)
Variable packagers_allowed_acl : User -> bool.

Variable merge : list string -> list string -> list string.

(** POST [/stacks/]: the ACL, then the view. *)
Definition stacks_post (data : SaveData) (user : User) : View (option Stack.t) :=
  if packagers_allowed_acl user then save_stack merge data user
  else errors_set_status HTTPForbidden_code ;; ret None.

(** DELETE [/stacks/{name}]: the ACL, the validator of the service, then
    the view. *)
Definition stack_delete (user : User) (n : string) : View (option string) :=
  if packagers_allowed_acl user then
    validated <- validate_stack n ;;
    match validated with
    | Some stack =>
        status <- delete_stack stack ;;
        ret (Some status)
    | None => ret None
    end
  else errors_set_status HTTPForbidden_code ;; ret None.

End Routes.

(** An ACL that admits the members of the packager group. *)
Definition packagers (user : User) : bool := mem "packager" (user_groups user).

(* ------------------------------------------------------------------ *)
(** ** query_stacks *)

(** The exact match of a LIKE pattern: [%] stands for any run of
    characters, [_] for any one character, every other character for
    itself and nothing else. The LIKE of a database is this match up to the
    case of letters and the escape character, see [Backend]. *)
Fixpoint like_match (pattern : string) : string -> bool :=
  match pattern with
  | EmptyString =>
      fun s => match s with EmptyString => true | String _ _ => false end
  | String c pattern' =>
      if Ascii.eqb c "%" then
        fix any_run (s : string) : bool :=
          like_match pattern' s
          || match s with
             | EmptyString => false
             | String _ s' => any_run s'
             end
      else if Ascii.eqb c "_" then
        fun s => match s with
                 | EmptyString => false
                 | String _ s' => like_match pattern' s'
                 end
      else
        fun s => match s with
                 | EmptyString => false
                 | String d s' => Ascii.eqb c d && like_match pattern' s'
                 end
  end.

(** ['%%%s%%' % like] *)
Definition like_pattern (like : string) : string := "%" ++ like ++ "%".

(** The string holds no backslash, the character some backends take as the
    default escape of a LIKE pattern. *)
Fixpoint no_backslash (s : string) : bool :=
  match s with
  | EmptyString => true
  | String c s' => negb (Ascii.eqb c "\") && no_backslash s'
  end.

(** ASCII capital letters as small letters. *)
Definition ascii_lower (c : ascii) : ascii :=
  let n := nat_of_ascii c in
  if (65 <=? n)%nat && (n <=? 90)%nat then ascii_of_nat (n + 32) else c.

Fixpoint lower (s : string) : string :=
  match s with
  | EmptyString => EmptyString
  | String c s' => String (ascii_lower c) (lower s')
  end.

(** What the views take from the database backend: its LIKE operator,
    [sql_like pattern s] for [s LIKE pattern]. The statement names no
    ESCAPE, and backends differ: on whether the case of letters counts
    (PostgreSQL: yes; SQLite: not for ASCII letters) and on the backslash
    (PostgreSQL: the default escape; SQLite: a character as any other). For
    a pattern without backslash both match what the exact match does, and
    nothing that the exact match does not find when the case of ASCII
    letters is set aside: these two laws are all the properties below use
    of the operator. *)
Class Backend := {
  sql_like : string -> string -> bool;
  sql_like_exact : forall pattern s,
    no_backslash pattern = true ->
    like_match pattern s = true -> sql_like pattern s = true;
  sql_like_nocase : forall pattern s,
    no_backslash pattern = true ->
    sql_like pattern s = true -> like_match (lower pattern) (lower s) = true
}.

(** A row of the query: the selected Stack and, once the query joins the
    packages table, the joined Package. *)
Record Row := mkRow {
  row_stack : Stack.t;
  row_package : option string
}.

Definition row_name (r : Row) : string := Stack.name (row_stack r).

(** [Stack.name.desc()] as a total boolean order on rows. *)
Module NameDesc <: TotalLeBool.
Definition t := Row.
Definition leb (a b : t) : bool := String.leb (row_name b) (row_name a).
Lemma leb_total (a b : t) : leb a b = true \/ leb b a = true.
Proof. unfold leb. apply String.leb_total. Qed.
End NameDesc.

Module RowSort := Sort NameDesc.

(** [request.db.query(Stack)] *)
Definition query_Stack (table : list Stack.t) : list Row :=
  map (fun s => mkRow s None) table.

(** [.order_by(Stack.name.desc())] *)
Definition order_by_name_desc (q : list Row) : list Row := RowSort.sort q.

(** [.filter_by(name=name)] *)
Definition filter_by_name (n : string) (q : list Row) : list Row :=
  filter (fun r => row_name r =? n) q.

(** [.filter(Stack.name.like(pattern))] *)
Definition filter_name_like {backend : Backend} (pattern : string)
    (q : list Row) : list Row :=
  filter (fun r => sql_like pattern (row_name r)) q.

(** [.join(Package.stack)]: one row for every package of every stack. *)
Definition join_packages (q : list Row) : list Row :=
  flat_map (fun r => map (fun p => mkRow (row_stack r) (Some p))
                         (Stack.packages (row_stack r))) q.

(** [.filter(or_( *[Package.name==pkg.name for pkg in packages]))] *)
Definition filter_package_in (names : list string) (q : list Row) : list Row :=
  filter (fun r => match row_package r with
                   | Some p => existsb (fun n => p =? n) names
                   | None => false
                   end) q.

(** [.count()]: the number of rows of the query, [SELECT count( * ) FROM
    (the query)]. *)
Definition count (q : list Row) : Z := Z.of_nat (List.length q).

Inductive Exn :=
| ZeroDivisionError   (* float division by zero *)
| OverflowError       (* an integer too large for the database *)
| DBAPIError.         (* the database refuses the statement *)

(** The largest integer an OFFSET or a LIMIT can be: the database takes a
    signed 64-bit integer. *)
Definition max_int64 : Z := 2 ^ 63 - 1.

(** [.offset(n)] and [.limit(n)], as the statement run by [.all()] applies
    them. A negative OFFSET or LIMIT is refused by PostgreSQL and read in
    other ways by other backends; the schema keeps the request away from
    it. An integer beyond 64 bits is refused too: the driver raises when it
    binds it. The properties below depend on no more of the two refusals
    than that the view raises. *)
Definition offset (n : Z) (q : list Row) : Exn + list Row :=
  if (n <? 0)%Z then inl DBAPIError
  else if (max_int64 <? n)%Z then inl OverflowError
  else inr (skipn (Z.to_nat n) q).

Definition limit (n : Z) (q : list Row) : Exn + list Row :=
  if (n <? 0)%Z then inl DBAPIError
  else if (max_int64 <? n)%Z then inl OverflowError
  else inr (firstn (Z.to_nat n) q).

(** The list of distinct objects of a result, in order of first
    occurrence: a query for one entity returns each object once, however
    many rows carry it. Under the unique stack name two rows carry the same
    object exactly when they carry equal stacks. *)
Fixpoint unique_list (l : list Stack.t) : list Stack.t :=
  match l with
  | [] => []
  | s :: l' => s :: filter (fun x => negb (Stack.eqb s x)) (unique_list l')
  end.

(** [.all()]: the Stack objects of the rows, each once. *)
Definition all (q : list Row) : list Stack.t :=
  unique_list (map row_stack q).

(** [int(math.ceil(total / float(rows_per_page)))]. [total] is a row count
    and [rows_per_page] a page size: a row count is exact as a float, and
    the rounded quotient has the ceiling of the exact one. Dividing by
    [float(0)] raises. *)
Definition ceil_div (total rows_per_page : Z) : Exn + Z :=
  if (rows_per_page =? 0)%Z then inl ZeroDivisionError
  else inr (- ((- total) / rows_per_page))%Z.

(** [request.validated] of a GET of [/stacks/]. *)
Record ListData := mkListData {
  q_name : option string;
  q_like : option string;
  q_packages : list string;
  q_page : Z;
  q_rows_per_page : Z
}.

(** The dictionary the view returns. *)
Record ListResult := mkListResult {
  stacks : list Stack.t;
  page : Z;
  pages : Z;
  rows_per_page : Z;
  total : Z
}.

(** Lines 69-77: the ordered query with the filters on the name. The view
    orders first and filters after; the filters keep the order of the rows
    they keep, as the ORDER BY of the final statement does. *)
Definition named_query {backend : Backend} (data : ListData)
    (table : list Stack.t) : list Row :=
  let query := order_by_name_desc (query_Stack table) in
  let query :=
    (* [if name:] fails for [None] and for the empty string *)
    match q_name data with
    | Some n => if n =? "" then query else filter_by_name n query
    | None => query
    end in
  match q_like data with
  | Some like =>
      if like =? "" then query else filter_name_like (like_pattern like) query
  | None => query
  end.

(** Lines 79-82: the query before pagination. *)
Definition filtered_query {backend : Backend} (data : ListData)
    (table : list Stack.t) : list Row :=
  let query := named_query data table in
  if truthy_list (q_packages data)
  then filter_package_in (q_packages data) (join_packages query)
  else query.

(** The view. *)
Definition query_stacks {backend : Backend} (data : ListData)
    (table : list Stack.t) : Exn + ListResult :=
  let query := filtered_query data table in
  let total := count query in
  let page := q_page data in
  let rows_per_page := q_rows_per_page data in
  match ceil_div total rows_per_page with
  | inl e => inl e
  | inr pages =>
      match offset (rows_per_page * (page - 1)) query with
      | inl e => inl e
      | inr query1 =>
          match limit rows_per_page query1 with
          | inl e => inl e
          | inr query2 =>
              inr (mkListResult (all query2) page pages rows_per_page total)
          end
      end
  end.

(** The filters of a list request as conditions on one stack. *)
Definition name_ok (data : ListData) (s : Stack.t) : Prop :=
  forall n, q_name data = Some n -> n <> "" -> Stack.name s = n.

Definition like_ok {backend : Backend} (data : ListData) (s : Stack.t) : Prop :=
  forall like, q_like data = Some like -> like <> "" ->
    sql_like (like_pattern like) (Stack.name s) = true.

Definition packages_ok (data : ListData) (s : Stack.t) : Prop :=
  q_packages data <> [] ->
  exists p, In p (Stack.packages s) /\ In p (q_packages data).

(** The same conditions as a test, and the stacks of a table that pass
    it: the matching stacks of a list request. *)
Definition stack_matches {backend : Backend} (data : ListData)
    (s : Stack.t) : bool :=
  match q_name data with
  | Some n => (n =? "") || (Stack.name s =? n)
  | None => true
  end
  && match q_like data with
     | Some like => (like =? "") || sql_like (like_pattern like) (Stack.name s)
     | None => true
     end
  && match q_packages data with
     | [] => true
     | _ :: _ => existsb (fun p => mem p (q_packages data)) (Stack.packages s)
     end.

Definition matching_stacks {backend : Backend} (data : ListData)
    (table : list Stack.t) : list Stack.t :=
  filter (stack_matches data) table.

(** The rows a list request asks for, in the order of the table: every
    stack that passes the name and like filters, once when the request
    names no packages, and else once for each of its packages that the
    request names. *)
Definition requested_rows {backend : Backend} (data : ListData)
    (table : list Stack.t) : list Stack.t :=
  flat_map
    (fun s =>
       if stack_matches (mkListData (q_name data) (q_like data) []
                           (q_page data) (q_rows_per_page data)) s
       then match q_packages data with
            | [] => [s]
            | _ :: _ =>
                map (fun _ => s)
                    (filter (fun p => mem p (q_packages data)) (Stack.packages s))
            end
       else [])
    table.

(** [like] occurs in [s]. *)
Definition substring_of (like s : string) : Prop :=
  exists pre post, s = pre ++ like ++ post.

(** No character of the string is special in a LIKE pattern ([%], [_], or
    the backslash that some backends take as the default escape). *)
Fixpoint plain_text (s : string) : bool :=
  match s with
  | EmptyString => true
  | String c s' =>
      negb (Ascii.eqb c "%") && negb (Ascii.eqb c "_")
      && negb (Ascii.eqb c "\") && plain_text s'
  end.

(** Names in descending order. *)
Definition name_ge (a b : Stack.t) : Prop :=
  String.leb (Stack.name b) (Stack.name a) = true.

(** Rows in descending order of name. *)
Definition row_ge (a b : Row) : Prop := NameDesc.leb a b = true.

(* ------------------------------------------------------------------ *)
(** ** get_stack *)

(** The view of lines 52-57: [request.validated['stack']] is its argument,
    the value of [dict(stack=...)] its result. *)
Definition get_stack (stack : Stack.t) : View Stack.t := ret stack.

(** GET [/stacks/{name}]: the validator of the service, then the view. *)
Definition stack_get (n : string) : View (option Stack.t) :=
  validated <- validate_stack n ;;
  match validated with
  | Some stack =>
      found <- get_stack stack ;;
      ret (Some found)
  | None => ret None
  end.

(* ------------------------------------------------------------------ *)
(** ** Conditions used in the properties *)

(** No two rows of the table have the same name. *)
Definition names_unique (table : list Stack.t) : Prop :=
  NoDup (map Stack.name table).

(** What a relationship update makes of a collection holds exactly the
    requested items. *)
Definition merge_exact (merge : list string -> list string -> list string)
  : Prop :=
  forall current desired x, In x (merge current desired) <-> In x desired.

(** A filter value as the view reads it: the empty string is no filter. *)
Definition drop_empty (v : option string) : option string :=
  match v with
  | Some s => if s =? "" then None else Some s
  | None => None
  end.

(* ------------------------------------------------------------------ *)
(** ** Sample data *)

Definition web_stack : Stack.t :=
  Stack.mk "web" (Some "Web servers") ["httpd"] ["alice"] ["admins"].

Definition web_request : Request := mkRequest [web_stack] [] [] None [].

Definition web_data : SaveData :=
  mkSaveData "web" (Some "HTTP servers") ["nginx"; "httpd"] ["alice"; "bob"] [].

Definition open_data : SaveData := mkSaveData "web" None ["httpd"] [] [].

Definition takeover_data : SaveData :=
  mkSaveData "mail" None ["postfix"; "httpd"] ["mallory"] [].

Definition mail_data : SaveData :=
  mkSaveData "mail" None ["postfix"] ["bob"] ["admins"].

Definition alice : User := mkUser "alice" ["packager"].
Definition carol : User := mkUser "carol" ["packager"; "admins"].
Definition mallory : User := mkUser "mallory" ["packager"].

Definition desktop_stack : Stack.t :=
  Stack.mk "desktop" None ["gnome-shell"; "gtk3"] ["carol"] [].

Definition abc_stack : Stack.t := Stack.mk "abc" None [] [] [].

(** Twenty-five stacks, named "a" to "y". *)
Definition many_stacks : list Stack.t :=
  map (fun n => Stack.mk (String (ascii_of_nat (97 + n)) "") None [] [] [])
      (seq 0 25).

Definition gtk_query : ListData := mkListData None None ["gtk3"] 1 10.

Definition two_stacks : Request :=
  mkRequest [desktop_stack; web_stack] [] [] None [].

Definition desktop_query : ListData :=
  mkListData None None ["gnome-shell"; "gtk3"] 1 1.

Definition desktop_query_page2 : ListData :=
  mkListData None None ["gnome-shell"; "gtk3"] 2 1.

(* ------------------------------------------------------------------ *)
(** * Properties *)

(** ** Membership and truthiness *)

Lemma mem_In (x : string) (l : list string) : mem x l = true <-> In x l.
Proof.
  unfold mem. rewrite existsb_exists. split.
  - intros [y [Hy Heq]]. apply String.eqb_eq in Heq. now subst.
  - intros H. exists x. split; [assumption | apply String.eqb_refl].
Qed.

Lemma mem_false_In (x : string) (l : list string) : mem x l = false <-> ~ In x l.
Proof.
  rewrite <- mem_In. destruct (mem x l); split; congruence.
Qed.

(** ** The database session *)

Lemma get_name (n : string) (table : list Stack.t) (s : Stack.t) :
  Stack.get n table = Some s -> Stack.name s = n.
Proof.
  unfold Stack.get. intros H. apply find_some in H.
  destruct H as [_ H]. now apply String.eqb_eq.
Qed.

Lemma get_app_None (n : string) (t1 t2 : list Stack.t) :
  Stack.get n t1 = None -> Stack.get n (t1 ++ t2) = Stack.get n t2.
Proof.
  unfold Stack.get. induction t1 as [|a t1 IH]; simpl; [reflexivity|].
  destruct (Stack.name a =? n); [discriminate | exact IH].
Qed.

Lemma get_replace_row (n : string) (table : list Stack.t) (s s' : Stack.t) :
  Stack.get n table = Some s -> Stack.name s' = n ->
  Stack.get n (replace_row s' table) = Some s'.
Proof.
  unfold Stack.get. intros Hget Hname. subst n.
  induction table as [|a table IH]; simpl in *; [discriminate|].
  destruct (Stack.name a =? Stack.name s') eqn:E; simpl.
  - now rewrite String.eqb_refl.
  - rewrite E. now apply IH.
Qed.

Lemma count_named_app (n : string) (t1 t2 : list Stack.t) :
  count_named n (t1 ++ t2) = count_named n t1 + count_named n t2.
Proof.
  unfold count_named. now rewrite filter_app, length_app.
Qed.

Lemma count_named_get_None (n : string) (table : list Stack.t) :
  Stack.get n table = None -> count_named n table = 0.
Proof.
  unfold Stack.get, count_named.
  induction table as [|a table IH]; simpl; [reflexivity|].
  destruct (Stack.name a =? n); [discriminate | exact IH].
Qed.

Lemma count_named_replace_row (n : string) (s' : Stack.t) (table : list Stack.t) :
  Stack.name s' = n ->
  count_named n (replace_row s' table) = count_named n table.
Proof.
  intros Hname. subst n. unfold count_named.
  induction table as [|a table IH]; simpl; [reflexivity|].
  destruct (Stack.name a =? Stack.name s') eqn:E; simpl.
  - now rewrite String.eqb_refl.
  - rewrite E. exact IH.
Qed.

Lemma release_name (s row : Stack.t) :
  Stack.name (release s row) = Stack.name row.
Proof.
  unfold release. destruct (Stack.name row =? Stack.name s); reflexivity.
Qed.

Lemma release_names (s : Stack.t) (table : list Stack.t) :
  map Stack.name (map (release s) table) = map Stack.name table.
Proof.
  rewrite map_map. apply map_ext. intros row. apply release_name.
Qed.

Lemma get_release (n : string) (s : Stack.t) (table : list Stack.t) :
  Stack.get n (map (release s) table)
  = option_map (release s) (Stack.get n table).
Proof.
  unfold Stack.get. induction table as [|a table IH]; simpl; [reflexivity|].
  rewrite release_name. destruct (Stack.name a =? n); [reflexivity | exact IH].
Qed.

Lemma count_named_release (n : string) (s : Stack.t) (table : list Stack.t) :
  count_named n (map (release s) table) = count_named n table.
Proof.
  unfold count_named. induction table as [|a table IH]; simpl; [reflexivity|].
  rewrite release_name. destruct (Stack.name a =? n); simpl; now rewrite IH.
Qed.

Lemma get_write_rows (n : string) (table : list Stack.t) (s s' : Stack.t) :
  Stack.get n table = Some s -> Stack.name s' = n ->
  Stack.get n (write_rows s' table) = Some s'.
Proof.
  intros Hget Hname. unfold write_rows.
  apply (get_replace_row n _ (release s' s)); [|exact Hname].
  now rewrite get_release, Hget.
Qed.

Lemma count_named_write_rows (n : string) (s' : Stack.t) (table : list Stack.t) :
  Stack.name s' = n ->
  count_named n (write_rows s' table) = count_named n table.
Proof.
  intros Hname. unfold write_rows.
  now rewrite count_named_replace_row, count_named_release.
Qed.

(** ** The steps of save_stack *)

Lemma is_owner_spec (user : User) (s : Stack.t) :
  is_owner user s = true <->
  In (user_name user) (Stack.users s)
  \/ exists g, In g (user_groups user) /\ In g (Stack.groups s).
Proof.
  unfold is_owner. destruct (mem (user_name user) (Stack.users s)) eqn:E.
  - apply mem_In in E. tauto.
  - apply mem_false_In in E. rewrite existsb_exists. split.
    + intros [g [Hg Hm]]. right. exists g.
      split; [assumption | now apply mem_In].
    + intros [Hu | [g [Hg Hm]]]; [contradiction|].
      exists g. split; [assumption | now apply mem_In].
Qed.

Lemma may_modify_owned (user : User) (s : Stack.t) :
  Stack.users s <> [] \/ Stack.groups s <> [] ->
  may_modify user s = is_owner user s.
Proof.
  intros Hne. unfold may_modify.
  destruct (Stack.users s); [|reflexivity].
  destruct (Stack.groups s); [|reflexivity].
  destruct Hne as [H | H]; now elim H.
Qed.

Lemma may_modify_unowned (user : User) (s : Stack.t) :
  Stack.users s = [] -> Stack.groups s = [] -> may_modify user s = true.
Proof.
  intros Hu Hg. unfold may_modify. now rewrite Hu, Hg.
Qed.

Lemma fetch_or_create_found (data : SaveData) (user : User) (r : Request)
    (s : Stack.t) :
  Stack.get (data_name data) (db_table r) = Some s ->
  fetch_or_create data user r = (s, r).
Proof.
  intros H. unfold fetch_or_create, bind, db_get. now rewrite H.
Qed.

Lemma fetch_or_create_new (data : SaveData) (user : User) (r : Request) :
  Stack.get (data_name data) (db_table r) = None ->
  fetch_or_create data user r =
    (Stack.mk (data_name data) None [] [user_name user] [],
     mkRequest
       (db_table r
          ++ (db_pending r ++ [Stack.mk (data_name data) None [] [user_name user] []]))
       [] (errors r) (errors_status r) (published r)).
Proof.
  intros H. unfold fetch_or_create, bind, db_get. now rewrite H.
Qed.

Lemma fetch_or_create_row (data : SaveData) (user : User) (r r1 : Request)
    (s : Stack.t) :
  fetch_or_create data user r = (s, r1) ->
  Stack.name s = data_name data
  /\ exists s0, Stack.get (data_name data) (db_table r1) = Some s0.
Proof.
  destruct (Stack.get (data_name data) (db_table r)) as [s0|] eqn:E; intros H.
  - rewrite (fetch_or_create_found _ _ _ _ E) in H. injection H as <- <-.
    split; [now apply get_name in E | now exists s0].
  - rewrite (fetch_or_create_new _ _ _ E) in H. injection H as <- <-.
    split; [reflexivity|]. simpl. rewrite (get_app_None _ _ _ E).
    unfold Stack.get. induction (db_pending r) as [|a l IH]; simpl.
    + rewrite String.eqb_refl. eauto.
    + destruct (Stack.name a =? data_name data); eauto.
Qed.

Lemma save_stack_unfold (merge : list string -> list string -> list string)
    (data : SaveData) (user : User) (r r1 : Request) (s : Stack.t) :
  fetch_or_create data user r = (s, r1) ->
  save_stack merge data user r =
    if may_modify user s then saved (apply_save merge data s) r1
    else refused user s r1.
Proof.
  intros H. unfold save_stack, bind at 1. rewrite H.
  destruct (may_modify user s); reflexivity.
Qed.

Lemma apply_save_name (merge : list string -> list string -> list string)
    (data : SaveData) (s : Stack.t) :
  Stack.name (apply_save merge data s) = Stack.name s.
Proof.
  unfold apply_save. destruct (data_description data) as [d|];
    [destruct (d =? "")|]; reflexivity.
Qed.

Lemma apply_save_rel (merge : list string -> list string -> list string)
    (data : SaveData) (s : Stack.t) (rel : Relationship) :
  Stack.rel rel (apply_save merge data s)
  = merge (Stack.rel rel s) (data_rel rel data).
Proof.
  unfold apply_save. destruct rel;
    (destruct (data_description data) as [d|];
      [destruct (d =? "")|]); reflexivity.
Qed.

Lemma apply_save_description (merge : list string -> list string -> list string)
    (data : SaveData) (s : Stack.t) :
  Stack.description (apply_save merge data s) =
    match data_description data with
    | Some d => if d =? "" then Stack.description s else Some d
    | None => Stack.description s
    end.
Proof.
  unfold apply_save. destruct (data_description data) as [d|];
    [destruct (d =? "")|]; reflexivity.
Qed.

Lemma save_stack_result (merge : list string -> list string -> list string)
    (data : SaveData) (user : User) (r r1 r' : Request) (s s' : Stack.t) :
  fetch_or_create data user r = (s, r1) ->
  save_stack merge data user r = (Some s', r') ->
  s' = apply_save merge data s
  /\ r' = snd (saved (apply_save merge data s) r1).
Proof.
  intros Hf Hs. rewrite (save_stack_unfold merge _ _ _ _ _ Hf) in Hs.
  destruct (may_modify user s).
  - unfold saved in *. injection Hs as <- <-. split; reflexivity.
  - discriminate.
Qed.

Lemma save_stack_row (merge : list string -> list string -> list string)
    (data : SaveData) (user : User) (r r' : Request) (s' : Stack.t) :
  save_stack merge data user r = (Some s', r') ->
  Stack.get (data_name data) (db_table r') = Some s'.
Proof.
  intros Hs. destruct (fetch_or_create data user r) as [s r1] eqn:Hf.
  destruct (save_stack_result _ _ _ _ _ _ _ _ Hf Hs) as [-> ->].
  destruct (fetch_or_create_row _ _ _ _ _ Hf) as [Hn [s0 Hg]].
  simpl. apply (get_write_rows _ _ s0); [assumption|].
  now rewrite apply_save_name.
Qed.

Lemma reconciled_In (current desired : list string) (x : string) :
  In x (reconciled current desired) <-> In x desired.
Proof.
  unfold reconciled, reconcile.
  rewrite filter_In, in_app_iff, filter_In, negb_true_iff, negb_true_iff.
  rewrite mem_false_In, mem_false_In, filter_In, negb_true_iff, mem_false_In.
  destruct (mem x desired) eqn:Ed; [apply mem_In in Ed | apply mem_false_In in Ed];
    destruct (mem x current) eqn:Ec;
    [apply mem_In in Ec | apply mem_false_In in Ec
    | apply mem_In in Ec | apply mem_false_In in Ec]; tauto.
Qed.

(** ** save_stack: authorization *)

(** C1. Let [s] be the stack a save works on (fetched, or just created).
    If [s] has users or groups, the save goes on to its writes exactly when
    the acting user is among the users of [s] or one of the acting user's
    groups is among the groups of [s]; if [s] has neither, the save goes on
    for every acting user. *)
Theorem save_stack_authorization
    (merge : list string -> list string -> list string)
    (data : SaveData) (user : User) (r r1 : Request) (s : Stack.t) :
  fetch_or_create data user r = (s, r1) ->
  (Stack.users s <> [] \/ Stack.groups s <> [] ->
   (save_stack merge data user r = saved (apply_save merge data s) r1
    <-> In (user_name user) (Stack.users s)
        \/ exists g, In g (user_groups user) /\ In g (Stack.groups s)))
  /\ (Stack.users s = [] -> Stack.groups s = [] ->
      save_stack merge data user r = saved (apply_save merge data s) r1).
Proof.
  intros Hf. rewrite (save_stack_unfold merge _ _ _ _ _ Hf). split.
  - intros Hne. rewrite (may_modify_owned user s Hne), <- is_owner_spec.
    destruct (is_owner user s); split; intros H;
      try reflexivity; discriminate.
  - intros Hu Hg. now rewrite (may_modify_unowned user s Hu Hg).
Qed.

Lemma save_stack_authorization_witness :
  save_stack reconciled web_data carol web_request
    = saved (apply_save reconciled web_data web_stack) web_request
  <-> In (user_name carol) (Stack.users web_stack)
      \/ exists g, In g (user_groups carol) /\ In g (Stack.groups web_stack).
Proof.
  apply (save_stack_authorization reconciled web_data carol web_request
           web_request web_stack).
  - reflexivity.
  - left. discriminate.
Defined.

(** C2. A save of an existing stack that has users or groups, by a user who
    is neither among its users nor in one of its groups, returns nothing,
    adds one error whose description names the user and the stack, sets
    the status to that of Forbidden, and leaves the table (so the stack's
    description, packages, users and groups), the session and the
    published messages as they were. *)
Theorem save_stack_forbidden
    (merge : list string -> list string -> list string)
    (data : SaveData) (user : User) (r : Request) (s : Stack.t) :
  Stack.get (data_name data) (db_table r) = Some s ->
  Stack.users s <> [] \/ Stack.groups s <> [] ->
  ~ In (user_name user) (Stack.users s) ->
  (forall g, In g (user_groups user) -> ~ In g (Stack.groups s)) ->
  exists r',
    save_stack merge data user r = (None, r')
    /\ errors r' = (errors r ++
         [("body", "name",
           (user_name user ++ " does not have privileges to modify the "
              ++ Stack.name s ++ " stack")%string)])%list
    /\ errors_status r' = Some 403%Z
    /\ db_table r' = db_table r
    /\ db_pending r' = db_pending r
    /\ published r' = published r
    /\ Stack.get (data_name data) (db_table r') = Some s.
Proof.
  intros Hget Hne Hu Hg.
  pose proof (fetch_or_create_found data user r s Hget) as Hf.
  rewrite (save_stack_unfold merge _ _ _ _ _ Hf).
  rewrite (may_modify_owned user s Hne).
  destruct (is_owner user s) eqn:Ho.
  - exfalso. apply is_owner_spec in Ho.
    destruct Ho as [H | [g [H1 H2]]]; [now apply Hu | now apply (Hg g)].
  - eexists. split; [reflexivity|]. simpl. repeat split; assumption.
Qed.

Lemma save_stack_forbidden_witness :
  exists r',
    save_stack reconciled web_data mallory web_request = (None, r')
    /\ errors r' =
         [("body", "name",
           "mallory does not have privileges to modify the web stack")]
    /\ errors_status r' = Some 403%Z
    /\ db_table r' = [web_stack]
    /\ db_pending r' = []
    /\ published r' = []
    /\ Stack.get "web" (db_table r') = Some web_stack.
Proof.
  apply (save_stack_forbidden reconciled web_data mallory web_request web_stack).
  - reflexivity.
  - left. discriminate.
  - simpl. intros [H | []]. discriminate.
  - simpl. intros g [<- | []] [H | []]. discriminate.
Defined.

(** ** save_stack: creation *)

(** C3. A save under a name that no stack has, in a session with nothing
    pending, first adds one stack with that name and with the acting user
    as its only user, and flushes it: the table gains exactly this row and
    nothing stays pending. The ownership check that follows passes on it,
    the save returns a stack, and the table then holds exactly one row with
    that name. *)
Theorem save_stack_creates
    (merge : list string -> list string -> list string)
    (data : SaveData) (user : User) (r : Request) :
  Stack.get (data_name data) (db_table r) = None ->
  db_pending r = [] ->
  exists new r1 r',
    new = Stack.mk (data_name data) None [] [user_name user] []
    /\ fetch_or_create data user r = (new, r1)
    /\ db_table r1 = (db_table r ++ [new])%list
    /\ db_pending r1 = []
    /\ may_modify user new = true
    /\ save_stack merge data user r = (Some (apply_save merge data new), r')
    /\ count_named (data_name data) (db_table r) = 0
    /\ count_named (data_name data) (db_table r') = 1
    /\ errors r' = errors r
    /\ errors_status r' = errors_status r.
Proof.
  intros Hget Hpend.
  pose proof (fetch_or_create_new data user r Hget) as Hf.
  rewrite Hpend in Hf. simpl in Hf.
  eexists. eexists. eexists.
  split; [reflexivity|]. split; [exact Hf|].
  split; [reflexivity|]. split; [reflexivity|].
  assert (Hm : may_modify user
                 (Stack.mk (data_name data) None [] [user_name user] []) = true).
  { unfold may_modify, is_owner, mem. simpl. now rewrite String.eqb_refl. }
  split; [exact Hm|].
  rewrite (save_stack_unfold merge _ _ _ _ _ Hf), Hm. unfold saved.
  split; [reflexivity|]. simpl.
  split; [now apply count_named_get_None|].
  split; [|split; reflexivity].
  rewrite count_named_write_rows by apply apply_save_name.
  rewrite count_named_app, (count_named_get_None _ _ Hget).
  unfold count_named. simpl. now rewrite String.eqb_refl.
Qed.

Lemma save_stack_creates_witness :
  exists new r1 r',
    new = Stack.mk "mail" None [] ["mallory"] []
    /\ fetch_or_create mail_data mallory web_request = (new, r1)
    /\ db_table r1 = [web_stack; new]
    /\ db_pending r1 = []
    /\ may_modify mallory new = true
    /\ save_stack reconciled mail_data mallory web_request
       = (Some (apply_save reconciled mail_data new), r')
    /\ count_named "mail" [web_stack] = 0
    /\ count_named "mail" (db_table r') = 1
    /\ errors r' = []
    /\ errors_status r' = None.
Proof.
  apply (save_stack_creates reconciled mail_data mallory web_request);
    reflexivity.
Defined.

(** ** save_stack: the writes *)

(** C4. With the reconciliation of the spec for [update_relationship], the
    stack a save returns has exactly the packages, the users and the groups
    of the request, each relationship on its own, and it is the row the
    table then holds under the name of the request. *)
Theorem save_stack_relationships
    (data : SaveData) (user : User) (r r' : Request) (s' : Stack.t) :
  save_stack reconciled data user r = (Some s', r') ->
  same_set (Stack.packages s') (data_packages data)
  /\ same_set (Stack.users s') (data_users data)
  /\ same_set (Stack.groups s') (data_groups data)
  /\ Stack.get (data_name data) (db_table r') = Some s'.
Proof.
  intros Hs. pose proof (save_stack_row _ _ _ _ _ _ Hs) as Hrow.
  destruct (fetch_or_create data user r) as [s r1] eqn:Hf.
  destruct (save_stack_result _ _ _ _ _ _ _ _ Hf Hs) as [-> _].
  assert (Hrel : forall rel,
             same_set (Stack.rel rel (apply_save reconciled data s))
                      (data_rel rel data)).
  { intros rel x. rewrite apply_save_rel. apply reconciled_In. }
  split; [exact (Hrel Packages)|].
  split; [exact (Hrel Users)|].
  split; [exact (Hrel Groups) | exact Hrow].
Qed.

Lemma save_stack_relationships_witness :
  same_set (Stack.packages (apply_save reconciled web_data web_stack))
    ["nginx"; "httpd"]
  /\ same_set (Stack.users (apply_save reconciled web_data web_stack))
       ["alice"; "bob"]
  /\ same_set (Stack.groups (apply_save reconciled web_data web_stack)) []
  /\ Stack.get "web"
       (db_table (snd (save_stack reconciled web_data alice web_request)))
     = Some (apply_save reconciled web_data web_stack).
Proof.
  exact (save_stack_relationships web_data alice web_request
           (snd (save_stack reconciled web_data alice web_request))
           (apply_save reconciled web_data web_stack) eq_refl).
Defined.

(** C5. In the stack a save returns, which is also the row the table then
    holds, the description is the description of the request when that is a
    non-empty string, and the description the stack had before when the
    request has none or an empty one. *)
Theorem save_stack_description
    (merge : list string -> list string -> list string)
    (data : SaveData) (user : User) (r r1 r' : Request) (s s' : Stack.t) :
  fetch_or_create data user r = (s, r1) ->
  save_stack merge data user r = (Some s', r') ->
  (forall d, data_description data = Some d -> d <> "" ->
     Stack.description s' = Some d)
  /\ (data_description data = None \/ data_description data = Some "" ->
      Stack.description s' = Stack.description s)
  /\ Stack.get (data_name data) (db_table r') = Some s'.
Proof.
  intros Hf Hs. pose proof (save_stack_row _ _ _ _ _ _ Hs) as Hrow.
  destruct (save_stack_result _ _ _ _ _ _ _ _ Hf Hs) as [-> _].
  rewrite apply_save_description. repeat split; try exact Hrow.
  - intros d Hd Hne. rewrite Hd. apply String.eqb_neq in Hne. now rewrite Hne.
  - intros [Hd | Hd]; rewrite Hd; reflexivity.
Qed.

Lemma save_stack_description_witness :
  (forall d, data_description web_data = Some d -> d <> "" ->
     Stack.description (apply_save reconciled web_data web_stack) = Some d)
  /\ (data_description web_data = None \/ data_description web_data = Some "" ->
      Stack.description (apply_save reconciled web_data web_stack)
      = Stack.description web_stack)
  /\ Stack.get "web"
       (db_table (snd (save_stack reconciled web_data alice web_request)))
     = Some (apply_save reconciled web_data web_stack).
Proof.
  apply (save_stack_description reconciled web_data alice web_request
           web_request
           (snd (save_stack reconciled web_data alice web_request))
           web_stack (apply_save reconciled web_data web_stack));
    reflexivity.
Defined.

(** ** LIKE patterns *)

Lemma like_match_percent (p s : string) :
  like_match (String "%" p) s =
    like_match p s
    || match s with
       | EmptyString => false
       | String _ s' => like_match (String "%" p) s'
       end.
Proof. destruct s; reflexivity. Qed.

Lemma like_match_char (c : ascii) (p s : string) :
  Ascii.eqb c "%" = false -> Ascii.eqb c "_" = false ->
  like_match (String c p) s =
    match s with
    | EmptyString => false
    | String d s' => Ascii.eqb c d && like_match p s'
    end.
Proof.
  intros H1 H2. cbn [like_match]. rewrite H1, H2. reflexivity.
Qed.

Lemma like_match_percent_spec (p s : string) :
  like_match (String "%" p) s = true <->
  exists pre suf, s = pre ++ suf /\ like_match p suf = true.
Proof.
  induction s as [|c s IH]; rewrite like_match_percent, orb_true_iff.
  - split.
    + intros [H | H]; [|discriminate]. now exists "", "".
    + intros [pre [suf [Hs H]]]. left.
      destruct pre; [|discriminate]. simpl in Hs. now subst suf.
  - rewrite IH. split.
    + intros [H | [pre [suf [Hs H]]]].
      * now exists "", (String c s).
      * exists (String c pre), suf. simpl. now rewrite Hs.
    + intros [pre [suf [Hs H]]]. destruct pre as [|d pre]; simpl in Hs.
      * left. now subst suf.
      * right. injection Hs as _ Hs. now exists pre, suf.
Qed.

Lemma like_match_plain_spec (l p s : string) :
  plain_text l = true ->
  (like_match (l ++ p) s = true <->
   exists suf, s = l ++ suf /\ like_match p suf = true).
Proof.
  revert s. induction l as [|c l IH]; intros s Hl.
  - simpl. split; [intros H; now exists s | intros [suf [-> H]]; exact H].
  - change (String c l ++ p) with (String c (l ++ p)).
    simpl in Hl. apply andb_true_iff in Hl. destruct Hl as [Hc Hl].
    apply andb_true_iff in Hc. destruct Hc as [Hc _].
    apply andb_true_iff in Hc. destruct Hc as [H1 H2].
    apply negb_true_iff in H1, H2.
    rewrite (like_match_char c (l ++ p) s H1 H2).
    destruct s as [|d s].
    + split; [discriminate | intros [suf [Hs _]]; discriminate].
    + rewrite andb_true_iff, (IH s Hl). split.
      * intros [Hcd [suf [-> H]]]. apply Ascii.eqb_eq in Hcd. subst d.
        now exists suf.
      * intros [suf [Hs H]]. injection Hs as -> ->.
        split; [apply Ascii.eqb_refl | now exists suf].
Qed.

Lemma like_match_any (s : string) : like_match "%" s = true.
Proof.
  apply like_match_percent_spec. exists s, "".
  split; [|reflexivity]. induction s as [|c s IH]; simpl; congruence.
Qed.

(** For a text without special characters, the LIKE filter of the view is
    the substring test. *)
Lemma like_pattern_substring (like n : string) :
  plain_text like = true ->
  (like_match (like_pattern like) n = true <-> substring_of like n).
Proof.
  intros Hl. unfold like_pattern, substring_of.
  change ("%" ++ like ++ "%") with (String "%" (like ++ "%")).
  rewrite like_match_percent_spec. split.
  - intros [pre [suf [-> H]]].
    apply (like_match_plain_spec like "%" suf Hl) in H.
    destruct H as [post [-> _]]. now exists pre, post.
  - intros [pre [post ->]]. exists pre, (like ++ post). split; [reflexivity|].
    apply (like_match_plain_spec like "%" _ Hl). exists post.
    split; [reflexivity | apply like_match_any].
Qed.

Lemma like_match_underscore (p s : string) :
  like_match (String "_" p) s =
    match s with
    | EmptyString => false
    | String _ s' => like_match p s'
    end.
Proof. destruct s; reflexivity. Qed.

Lemma like_match_itself (l p suf : string) :
  like_match p suf = true -> like_match (l ++ p) (l ++ suf) = true.
Proof.
  intros H. induction l as [|c l IH]; [exact H|].
  change (like_match (String c (l ++ p)) (String c (l ++ suf)) = true).
  destruct (Ascii.eqb c "%") eqn:E1.
  - apply Ascii.eqb_eq in E1. subst c. apply like_match_percent_spec.
    exists "%", (l ++ suf). split; [reflexivity | exact IH].
  - destruct (Ascii.eqb c "_") eqn:E2.
    + apply Ascii.eqb_eq in E2. subst c. now rewrite like_match_underscore.
    + rewrite (like_match_char c _ _ E1 E2), Ascii.eqb_refl. exact IH.
Qed.

Lemma like_pattern_contains (like n : string) :
  substring_of like n -> like_match (like_pattern like) n = true.
Proof.
  intros [pre [post ->]]. unfold like_pattern.
  change ("%" ++ like ++ "%") with (String "%" (like ++ "%")).
  apply like_match_percent_spec. exists pre, (like ++ post).
  split; [reflexivity|]. apply like_match_itself, like_match_any.
Qed.

(** ** The case of letters *)

Lemma ascii_lower_special (c : ascii) :
  (ascii_lower c = "%"%char -> c = "%"%char)
  /\ (ascii_lower c = "_"%char -> c = "_"%char)
  /\ (ascii_lower c = "\"%char -> c = "\"%char).
Proof.
  destruct c as [[] [] [] [] [] [] [] []]; vm_compute;
    repeat split; intros H; try reflexivity; discriminate H.
Qed.

Lemma ascii_lower_eqb (c d : ascii) :
  Ascii.eqb c d = true -> Ascii.eqb (ascii_lower c) (ascii_lower d) = true.
Proof.
  intros H. apply Ascii.eqb_eq in H. subst d. apply Ascii.eqb_refl.
Qed.

Lemma ascii_lower_not (c x : ascii) :
  (ascii_lower c = x -> c = x) ->
  Ascii.eqb c x = false -> Ascii.eqb (ascii_lower c) x = false.
Proof.
  intros H E. apply Ascii.eqb_neq. intros Hl. apply Ascii.eqb_neq in E.
  now apply E, H.
Qed.

Lemma lower_app (a b : string) : lower (a ++ b) = lower a ++ lower b.
Proof.
  induction a as [|c a IH]; simpl; [reflexivity | now rewrite IH].
Qed.

Lemma like_match_lower (p s : string) :
  like_match p s = true -> like_match (lower p) (lower s) = true.
Proof.
  revert s. induction p as [|c p IH]; intros s H.
  - destruct s; [reflexivity | discriminate].
  - destruct (ascii_lower_special c) as [Hpc [Hus _]].
    change (lower (String c p)) with (String (ascii_lower c) (lower p)).
    destruct (Ascii.eqb c "%") eqn:E1.
    + apply Ascii.eqb_eq in E1. subst c.
      apply like_match_percent_spec in H. destruct H as [pre [suf [-> H]]].
      change (ascii_lower "%") with "%"%char.
      apply like_match_percent_spec. exists (lower pre), (lower suf).
      split; [apply lower_app | now apply IH].
    + destruct (Ascii.eqb c "_") eqn:E2.
      * apply Ascii.eqb_eq in E2. subst c.
        rewrite like_match_underscore in H.
        change (ascii_lower "_") with "_"%char.
        destruct s as [|d s]; [discriminate|]. simpl lower.
        rewrite like_match_underscore. now apply IH.
      * rewrite (like_match_char c p s E1 E2) in H.
        destruct s as [|d s]; [discriminate|].
        apply andb_true_iff in H. destruct H as [Hcd H].
        simpl lower.
        rewrite (like_match_char _ _ _ (ascii_lower_not c _ Hpc E1)
                   (ascii_lower_not c _ Hus E2)).
        apply andb_true_iff. split; [now apply ascii_lower_eqb | now apply IH].
Qed.

Lemma no_backslash_app (a b : string) :
  no_backslash (a ++ b) = no_backslash a && no_backslash b.
Proof.
  induction a as [|c a IH]; simpl; [reflexivity|].
  now rewrite IH, andb_assoc.
Qed.

Lemma no_backslash_pattern (like : string) :
  no_backslash (like_pattern like) = no_backslash like.
Proof.
  unfold like_pattern.
  change ("%" ++ like ++ "%") with (String "%" (like ++ "%")).
  simpl. rewrite no_backslash_app. simpl. now rewrite andb_true_r.
Qed.

Lemma plain_text_no_backslash (s : string) :
  plain_text s = true -> no_backslash s = true.
Proof.
  induction s as [|c s IH]; simpl; [reflexivity|]. intros H.
  apply andb_true_iff in H. destruct H as [H Hs].
  apply andb_true_iff in H. destruct H as [_ Hb].
  rewrite Hb. now apply IH.
Qed.

Lemma plain_text_lower (s : string) :
  plain_text s = true -> plain_text (lower s) = true.
Proof.
  induction s as [|c s IH]; simpl; [reflexivity|]. intros H.
  apply andb_true_iff in H. destruct H as [H Hs].
  apply andb_true_iff in H. destruct H as [H Hb].
  apply andb_true_iff in H. destruct H as [Hp Hu].
  apply negb_true_iff in Hp, Hu, Hb.
  destruct (ascii_lower_special c) as [H1 [H2 H3]].
  rewrite (ascii_lower_not c _ H1 Hp), (ascii_lower_not c _ H2 Hu),
    (ascii_lower_not c _ H3 Hb). simpl. now apply IH.
Qed.

Lemma lower_pattern (like : string) :
  lower (like_pattern like) = like_pattern (lower like).
Proof.
  unfold like_pattern.
  change ("%" ++ like ++ "%") with (String "%" (like ++ "%")).
  simpl. now rewrite lower_app.
Qed.

(** ** Two backends *)

(** A backend whose LIKE compares characters exactly, as PostgreSQL does
    for a pattern without backslash. *)
Definition exact_like : Backend :=
  Build_Backend like_match
    (fun pattern s _ H => H)
    (fun pattern s _ H => like_match_lower pattern s H).

(** A backend whose LIKE sets the case of ASCII letters aside, as SQLite
    does. *)
Definition nocase_like : Backend :=
  Build_Backend (fun pattern s => like_match (lower pattern) (lower s))
    (fun pattern s _ H => like_match_lower pattern s H)
    (fun pattern s _ H => H).

(** ** The order of names *)

Lemma ascii_compare_refl (a : ascii) : Ascii.compare a a = Eq.
Proof. unfold Ascii.compare. apply N.compare_refl. Qed.

Lemma ascii_compare_lt_trans (a b c : ascii) :
  Ascii.compare a b = Lt -> Ascii.compare b c = Lt -> Ascii.compare a c = Lt.
Proof.
  unfold Ascii.compare. rewrite !N.compare_lt_iff. apply N.lt_trans.
Qed.

Lemma string_leb_trans (a b c : string) :
  String.leb a b = true -> String.leb b c = true -> String.leb a c = true.
Proof.
  unfold String.leb. revert b c.
  induction a as [|x a IH]; intros [|y b] [|z c]; simpl;
    try reflexivity; try discriminate.
  destruct (Ascii.compare x y) eqn:Exy; try discriminate;
    destruct (Ascii.compare y z) eqn:Eyz; try discriminate.
  - apply Ascii.compare_eq_iff in Exy, Eyz. subst y z.
    rewrite ascii_compare_refl. apply IH.
  - apply Ascii.compare_eq_iff in Exy. subst y. now rewrite Eyz.
  - apply Ascii.compare_eq_iff in Eyz. subst z. now rewrite Exy.
  - now rewrite (ascii_compare_lt_trans _ _ _ Exy Eyz).
Qed.

Lemma string_leb_refl (a : string) : String.leb a a = true.
Proof. destruct (String.leb_total a a); assumption. Qed.

Lemma NameDesc_leb_trans : Transitive (fun a b => NameDesc.leb a b = true).
Proof.
  intros a b c Hab Hbc. unfold NameDesc.leb in *.
  exact (string_leb_trans _ _ _ Hbc Hab).
Qed.

(** ** Sorted lists *)

Section StronglySortedFacts.

Variable A : Type.
Variable R : A -> A -> Prop.

Lemma StronglySorted_filter (f : A -> bool) (l : list A) :
  StronglySorted R l -> StronglySorted R (filter f l).
Proof.
  induction 1 as [|a l Hs IH Hall]; simpl; [constructor|].
  destruct (f a); [|exact IH]. constructor; [exact IH|].
  rewrite Forall_forall in *. intros x Hx. apply Hall.
  now apply filter_In in Hx.
Qed.

Lemma StronglySorted_app_inv (l1 l2 : list A) :
  StronglySorted R (l1 ++ l2) -> StronglySorted R l1 /\ StronglySorted R l2.
Proof.
  induction l1 as [|a l1 IH]; simpl; intros H.
  - split; [constructor | exact H].
  - apply StronglySorted_inv in H. destruct H as [Hs Hall].
    destruct (IH Hs) as [H1 H2]. split; [|exact H2].
    constructor; [exact H1|]. apply Forall_app in Hall. tauto.
Qed.

Lemma StronglySorted_firstn (n : nat) (l : list A) :
  StronglySorted R l -> StronglySorted R (firstn n l).
Proof.
  intros H. rewrite <- (firstn_skipn n l) in H.
  now apply StronglySorted_app_inv in H.
Qed.

Lemma StronglySorted_skipn (n : nat) (l : list A) :
  StronglySorted R l -> StronglySorted R (skipn n l).
Proof.
  intros H. rewrite <- (firstn_skipn n l) in H.
  now apply StronglySorted_app_inv in H.
Qed.

End StronglySortedFacts.

Arguments StronglySorted_filter {A R}.
Arguments StronglySorted_firstn {A R}.
Arguments StronglySorted_skipn {A R}.

(** ** The rows of a query *)

Lemma order_by_name_desc_In (q : list Row) (r : Row) :
  In r (order_by_name_desc q) <-> In r q.
Proof.
  unfold order_by_name_desc. split.
  - apply Permutation_in, Permutation_sym, RowSort.Permuted_sort.
  - apply Permutation_in, RowSort.Permuted_sort.
Qed.

Lemma order_by_name_desc_sorted (q : list Row) :
  StronglySorted row_ge (order_by_name_desc q).
Proof.
  apply RowSort.StronglySorted_sort. exact NameDesc_leb_trans.
Qed.

Lemma optional_filter_In (v : option string) (f : string -> Row -> bool)
    (q : list Row) (r : Row) :
  In r match v with
       | Some n => if n =? "" then q else filter (f n) q
       | None => q
       end
  <-> In r q /\ (forall n, v = Some n -> n <> "" -> f n r = true).
Proof.
  destruct v as [n|].
  - destruct (n =? "") eqn:En.
    + apply String.eqb_eq in En. split; [|tauto]. intros H. split; [exact H|].
      intros n' Hn' Hne. congruence.
    + apply String.eqb_neq in En. rewrite filter_In. split.
      * intros [H Hf]. split; [exact H|]. intros n' Hn' _. congruence.
      * intros [H Hf]. split; [exact H|]. now apply Hf.
  - split; [|tauto]. intros H. split; [exact H|]. discriminate.
Qed.

Lemma named_query_In {backend : Backend} (data : ListData) (table : list Stack.t) (r : Row) :
  In r (named_query data table) <->
  row_package r = None /\ In (row_stack r) table
  /\ name_ok data (row_stack r) /\ like_ok data (row_stack r).
Proof.
  unfold named_query, name_ok, like_ok.
  etransitivity;
    [apply (optional_filter_In (q_like data)
              (fun l x => sql_like (like_pattern l) (row_name x)))|].
  etransitivity;
    [apply and_iff_compat_r,
       (optional_filter_In (q_name data) (fun n x => row_name x =? n))|].
  rewrite order_by_name_desc_In. unfold query_Stack. rewrite in_map_iff.
  unfold row_name. split.
  - intros [[[s [<- Hs]] Hn] Hl]. simpl in *. repeat split; auto.
    intros n Hn1 Hn2. apply String.eqb_eq. now apply Hn.
  - intros [Hp [Hs [Hn Hl]]]. repeat split; auto.
    + exists (row_stack r). split; [|exact Hs].
      destruct r as [s p]. simpl in *. now subst p.
    + intros n Hn1 Hn2. apply String.eqb_eq. now apply Hn.
Qed.

Lemma named_query_sorted {backend : Backend} (data : ListData) (table : list Stack.t) :
  StronglySorted row_ge (named_query data table).
Proof.
  unfold named_query, filter_by_name, filter_name_like.
  pose proof (order_by_name_desc_sorted (query_Stack table)) as H.
  destruct (q_name data) as [n|]; destruct (q_like data) as [l|];
    try destruct (n =? ""); try destruct (l =? "");
    repeat apply StronglySorted_filter; exact H.
Qed.

Lemma join_packages_In (q : list Row) (r : Row) :
  In r (join_packages q) <->
  exists r0 p, In r0 q /\ In p (Stack.packages (row_stack r0))
               /\ r = mkRow (row_stack r0) (Some p).
Proof.
  unfold join_packages. rewrite in_flat_map. split.
  - intros [r0 [H0 H]]. apply in_map_iff in H. destruct H as [p [<- Hp]].
    now exists r0, p.
  - intros [r0 [p [H0 [Hp ->]]]]. exists r0. split; [exact H0|].
    apply in_map_iff. now exists p.
Qed.

Lemma join_packages_sorted (q : list Row) :
  StronglySorted row_ge q -> StronglySorted row_ge (join_packages q).
Proof.
  unfold join_packages.
  induction 1 as [|r q Hs IH Hall]; simpl; [constructor|].
  induction (Stack.packages (row_stack r)) as [|p ps IHp]; simpl; [exact IH|].
  constructor; [exact IHp|]. apply Forall_app. split.
  - apply Forall_forall. intros x Hx. apply in_map_iff in Hx.
    destruct Hx as [p' [<- _]]. unfold row_ge, NameDesc.leb, row_name. simpl.
    apply string_leb_refl.
  - apply Forall_forall. intros x Hx. apply in_flat_map in Hx.
    destruct Hx as [r0 [H0 Hx]]. apply in_map_iff in Hx.
    destruct Hx as [p' [<- _]]. rewrite Forall_forall in Hall.
    exact (Hall r0 H0).
Qed.

Lemma filtered_query_In {backend : Backend} (data : ListData) (table : list Stack.t) (s : Stack.t) :
  In s (map row_stack (filtered_query data table)) <->
  In s table /\ name_ok data s /\ like_ok data s /\ packages_ok data s.
Proof.
  unfold filtered_query, packages_ok. rewrite in_map_iff.
  destruct (q_packages data) as [|p0 ps] eqn:Ep; simpl truthy_list; cbv iota.
  - split.
    + intros [r [<- Hr]]. apply named_query_In in Hr.
      split; [tauto|]. split; [tauto|]. split; [tauto|].
      intros H. now elim H.
    + intros [Hs [Hn [Hl _]]]. exists (mkRow s None). split; [reflexivity|].
      apply named_query_In. simpl. tauto.
  - unfold filter_package_in. split.
    + intros [r [<- Hr]]. apply filter_In in Hr. destruct Hr as [Hr Hp].
      apply join_packages_In in Hr. destruct Hr as [r0 [p [H0 [Hp0 ->]]]].
      cbn [row_stack row_package] in *. apply named_query_In in H0.
      split; [tauto|]. split; [tauto|]. split; [tauto|].
      intros _. exists p. split; [exact Hp0|].
      apply existsb_exists in Hp. destruct Hp as [n [Hn Heq]].
      apply String.eqb_eq in Heq. now subst n.
    + intros [Hs [Hn [Hl Hp]]].
      destruct Hp as [p [Hp1 Hp2]]; [discriminate|].
      exists (mkRow s (Some p)). split; [reflexivity|].
      apply filter_In. split.
      * apply join_packages_In. exists (mkRow s None), p.
        repeat split; try assumption. apply named_query_In. simpl. tauto.
      * cbn [row_package]. apply existsb_exists. exists p.
        split; [exact Hp2 | apply String.eqb_refl].
Qed.

Lemma filtered_query_sorted {backend : Backend} (data : ListData) (table : list Stack.t) :
  StronglySorted row_ge (filtered_query data table).
Proof.
  unfold filtered_query, filter_package_in.
  pose proof (named_query_sorted data table) as H.
  destruct (truthy_list (q_packages data)); [|exact H].
  now apply StronglySorted_filter, join_packages_sorted.
Qed.

Lemma unique_list_In (l : list Stack.t) (s : Stack.t) :
  In s (unique_list l) <-> In s l.
Proof.
  induction l as [|a l IH]; simpl; [tauto|].
  rewrite filter_In, IH, negb_true_iff. unfold Stack.eqb.
  destruct (Stack.eq_dec a s) as [E | E].
  - split; intros _; now left.
  - split.
    + intros [H | [H _]]; auto.
    + intros [H | H]; [contradiction | right; now split].
Qed.

Lemma unique_list_sorted (R : Stack.t -> Stack.t -> Prop) (l : list Stack.t) :
  StronglySorted R l -> StronglySorted R (unique_list l).
Proof.
  induction 1 as [|a l Hs IH Hall]; simpl; constructor.
  - now apply StronglySorted_filter.
  - apply Forall_forall. intros x Hx. apply filter_In in Hx.
    destruct Hx as [Hx _]. apply (proj1 (unique_list_In l x)) in Hx.
    rewrite Forall_forall in Hall. exact (Hall x Hx).
Qed.

Lemma map_row_stack_sorted (q : list Row) :
  StronglySorted row_ge q -> StronglySorted name_ge (map row_stack q).
Proof.
  induction 1 as [|r q Hs IH Hall]; simpl; constructor; [exact IH|].
  rewrite Forall_forall in *. intros x Hx. apply in_map_iff in Hx.
  destruct Hx as [r0 [<- H0]]. exact (Hall r0 H0).
Qed.

Lemma In_page {A : Type} (n m : nat) (l : list A) (x : A) :
  In x (firstn n (skipn m l)) -> In x l.
Proof.
  intros H. rewrite <- (firstn_skipn m l). apply in_or_app. right.
  rewrite <- (firstn_skipn n (skipn m l)). apply in_or_app. now left.
Qed.

(** ** Pagination *)

(** When the view returns, page size and offset were acceptable, and the
    result is the page cut out of the filtered query. *)
Lemma query_stacks_inr {backend : Backend} (data : ListData) (table : list Stack.t) (res : ListResult) :
  query_stacks data table = inr res ->
  q_rows_per_page data <> 0%Z
  /\ (0 <= q_rows_per_page data * (q_page data - 1) <= max_int64)%Z
  /\ (0 <= q_rows_per_page data <= max_int64)%Z
  /\ res = mkListResult
             (all (firstn (Z.to_nat (q_rows_per_page data))
                     (skipn (Z.to_nat (q_rows_per_page data * (q_page data - 1)))
                        (filtered_query data table))))
             (q_page data)
             (- (- count (filtered_query data table) / q_rows_per_page data))%Z
             (q_rows_per_page data)
             (count (filtered_query data table)).
Proof.
  unfold query_stacks, ceil_div, offset, limit.
  destruct (Z.eqb_spec (q_rows_per_page data) 0) as [E | E]; [discriminate|].
  destruct (Z.ltb_spec (q_rows_per_page data * (q_page data - 1)) 0) as [L | L];
    [discriminate|].
  destruct (Z.ltb_spec max_int64 (q_rows_per_page data * (q_page data - 1)))
    as [M | M]; [discriminate|].
  destruct (Z.ltb_spec (q_rows_per_page data) 0) as [L' | L']; [discriminate|].
  destruct (Z.ltb_spec max_int64 (q_rows_per_page data)) as [M' | M'];
    [discriminate|].
  intros H. injection H as <-. repeat split; assumption.
Qed.

Lemma ceil_div_bounds (total rows : Z) :
  (0 < rows)%Z ->
  (total <= rows * - (- total / rows) < total + rows)%Z.
Proof.
  intros Hr.
  pose proof (Z.div_mod (- total) rows ltac:(lia)) as Hdm.
  pose proof (Z.mod_pos_bound (- total) rows Hr) as Hb.
  nia.
Qed.

Lemma query_stacks_pagination {backend : Backend} (data : ListData) (table : list Stack.t)
    (res : ListResult) :
  query_stacks data table = inr res ->
  total res = count (filtered_query data table)
  /\ (0 < rows_per_page res)%Z
  /\ (total res <= rows_per_page res * pages res
      < total res + rows_per_page res)%Z
  /\ ((pages res < page res)%Z -> stacks res = []).
Proof.
  intros H. apply query_stacks_inr in H.
  destruct H as [Hnz [Hoff [Hpos ->]]]. simpl.
  assert (Hr : (0 < q_rows_per_page data)%Z) by lia.
  pose proof (ceil_div_bounds (count (filtered_query data table)) _ Hr) as Hb.
  repeat split; try lia.
  intros Hp. rewrite skipn_all2; [now rewrite firstn_nil|].
  unfold count in *. nia.
Qed.

(** ** Counting without the join *)

Lemma Permutation_filter {A : Type} (f : A -> bool) (l l' : list A) :
  Permutation l l' -> Permutation (filter f l) (filter f l').
Proof.
  induction 1 as [| x l l' Hp IH | x y l | l l' l'' H1 IH1 H2 IH2]; simpl.
  - constructor.
  - destruct (f x); [now constructor | exact IH].
  - destruct (f x), (f y); try apply Permutation_refl. constructor.
  - now transitivity (filter f l').
Qed.

Lemma optional_filter_eq (v : option string) (f : string -> Row -> bool)
    (q : list Row) :
  match v with
  | Some n => if n =? "" then q else filter (f n) q
  | None => q
  end
  = filter (fun r => match v with
                     | Some n => (n =? "") || f n r
                     | None => true
                     end) q.
Proof.
  destruct v as [n|]; [destruct (n =? "")|]; simpl;
    try (symmetry; apply filter_true). reflexivity.
Qed.

Lemma filter_twice {A : Type} (f g : A -> bool) (l : list A) :
  filter g (filter f l) = filter (fun x => f x && g x) l.
Proof.
  induction l as [|a l IH]; simpl; [reflexivity|].
  destruct (f a); simpl; [destruct (g a)|]; now rewrite IH.
Qed.

Lemma named_query_length {backend : Backend} (data : ListData) (table : list Stack.t) :
  q_packages data = [] ->
  List.length (named_query data table)
  = List.length (matching_stacks data table).
Proof.
  intros Hp. unfold named_query, matching_stacks, filter_by_name,
    filter_name_like.
  rewrite (optional_filter_eq (q_name data) (fun n r => row_name r =? n)).
  rewrite (optional_filter_eq (q_like data)
             (fun l r => sql_like (like_pattern l) (row_name r))).
  rewrite filter_twice.
  rewrite <- (Permutation_length
                (Permutation_filter _ _ _
                   (RowSort.Permuted_sort (query_Stack table)))).
  unfold query_Stack. rewrite filter_map_swap, length_map.
  f_equal. apply filter_ext. intros s. unfold stack_matches, row_name.
  rewrite Hp. simpl. now rewrite andb_true_r.
Qed.

(** Without a packages filter the total is the number of matching stacks. *)
Lemma query_stacks_total_without_join {backend : Backend} (data : ListData) (table : list Stack.t)
    (res : ListResult) :
  q_packages data = [] ->
  query_stacks data table = inr res ->
  total res = Z.of_nat (List.length (matching_stacks data table)).
Proof.
  intros Hp H. apply query_stacks_pagination in H. destruct H as [-> _].
  unfold count, filtered_query. rewrite Hp. simpl.
  now rewrite named_query_length.
Qed.

(** ** delete_stack *)

Lemma get_after_delete (n : string) (table : list Stack.t) :
  Stack.get n (filter (fun x => negb (Stack.name x =? n)) table) = None.
Proof.
  unfold Stack.get. induction table as [|a table IH]; simpl; [reflexivity|].
  destruct (Stack.name a =? n) eqn:E; simpl; [exact IH|]. now rewrite E.
Qed.

(** The view itself refuses nobody: whatever the stack and the state, it
    publishes, deletes and answers. *)
Lemma delete_stack_run (s : Stack.t) (r : Request) :
  delete_stack s r =
    ("success",
     mkRequest (filter (fun x => negb (Stack.name x =? Stack.name s)) (db_table r))
       (db_pending r) (errors r) (errors_status r)
       (published r ++ [("stack.delete", s)])).
Proof. reflexivity. Qed.

(** Every caller the ACL admits deletes every stack there is: the route
    asks nothing about the users and groups of the stack. *)
Lemma stack_delete_admitted (acl : User -> bool) (user : User) (n : string)
    (r : Request) (s : Stack.t) :
  acl user = true ->
  Stack.get n (db_table r) = Some s ->
  stack_delete acl user n r = (Some "success", snd (delete_stack s r)).
Proof.
  intros Ha Hget. unfold stack_delete, validate_stack, bind, db_get.
  now rewrite Ha, Hget.
Qed.

(** C6, at a DELETE of the stack "web" (user alice, group admins) by
    mallory, a packager who is not among its users and in none of its
    groups. The POST route refuses mallory's save of this stack in the
    view, so its ACL admits mallory; behind the same ACL the DELETE route
    publishes, deletes the stack and answers "success". *)
Theorem stack_delete_by_non_owner :
  is_owner mallory web_stack = false
  /\ stacks_post packagers reconciled web_data mallory web_request
     = refused mallory web_stack web_request
  /\ stack_delete packagers mallory "web" web_request
     = (Some "success",
        mkRequest [] [] [] None [("stack.delete", web_stack)]).
Proof.
  split; [reflexivity|]. split.
  - unfold stacks_post. change (packagers mallory) with true. cbv iota.
    rewrite (save_stack_unfold reconciled web_data mallory web_request
               web_request web_stack eq_refl).
    reflexivity.
  - rewrite (stack_delete_admitted packagers mallory "web" web_request
               web_stack eq_refl eq_refl).
    reflexivity.
Qed.

(** C7. For a stack of the table, the first effect of delete_stack is
    the publication of a [stack.delete] message that carries the stack as
    the table holds it, with its packages, users and groups: when it is
    published the table is still as it was and resolves the name to the
    stack. The effects that follow delete the stack and publish nothing
    more: afterwards the name resolves to nothing, and the view answers
    "success". *)
Theorem delete_stack_publishes_then_deletes (s : Stack.t) (r : Request) :
  Stack.get (Stack.name s) (db_table r) = Some s ->
  exists first rest r1 r',
    effects (delete_stack s) = first :: rest
    /\ perform first r = (tt, r1)
    /\ published r1 = (published r ++ [("stack.delete", s)])%list
    /\ db_table r1 = db_table r
    /\ Stack.get (Stack.name s) (db_table r1) = Some s
    /\ perform_all rest r1 = (tt, r')
    /\ delete_stack s r = ("success", r')
    /\ published r' = published r1
    /\ Stack.get (Stack.name s) (db_table r') = None.
Proof.
  intros Hget. eexists. eexists. eexists. eexists.
  split; [reflexivity|]. split; [reflexivity|]. split; [reflexivity|].
  split; [reflexivity|]. split; [exact Hget|].
  split; [reflexivity|]. split; [reflexivity|]. split; [reflexivity|].
  simpl. apply get_after_delete.
Qed.

Lemma delete_stack_publishes_then_deletes_witness :
  exists first rest r1 r',
    effects (delete_stack web_stack) = first :: rest
    /\ perform first web_request = (tt, r1)
    /\ published r1 = [("stack.delete", web_stack)]
    /\ db_table r1 = [web_stack]
    /\ Stack.get "web" (db_table r1) = Some web_stack
    /\ perform_all rest r1 = (tt, r')
    /\ delete_stack web_stack web_request = ("success", r')
    /\ published r' = published r1
    /\ Stack.get "web" (db_table r') = None.
Proof.
  apply (delete_stack_publishes_then_deletes web_stack web_request).
  reflexivity.
Defined.

(** ** query_stacks *)

(** The pagination of the spec's example: 25 stacks in pages of 10. *)
Example query_stacks_25_by_10 {backend : Backend} :
  match query_stacks (mkListData None None [] 3 10) many_stacks,
        query_stacks (mkListData None None [] 4 10) many_stacks with
  | inr page3, inr page4 =>
      (List.length (stacks page3), total page3, pages page3) = (5, 25%Z, 3%Z)
      /\ (stacks page4, total page4, pages page4) = ([], 25%Z, 3%Z)
  | _, _ => False
  end.
Proof. vm_compute. split; reflexivity. Qed.

(** C8, at a request for two packages of one stack. The join gives one row
    per package, and the view counts rows: with one matching stack in the
    table it reports a total of 2 and 2 pages of one row, and hands out the
    same stack on page 1 and on page 2. *)
Theorem query_stacks_total_counts_joined_rows {backend : Backend} :
  matching_stacks desktop_query [desktop_stack; web_stack] = [desktop_stack]
  /\ query_stacks desktop_query [desktop_stack; web_stack]
     = inr (mkListResult [desktop_stack] 1 2 1 2)
  /\ query_stacks desktop_query_page2 [desktop_stack; web_stack]
     = inr (mkListResult [desktop_stack] 2 2 1 2).
Proof.
  split; [|split]; vm_compute; reflexivity.
Qed.

Lemma flat_map_filter {A B : Type} (g : A -> bool) (h : A -> list B)
    (l : list A) :
  flat_map (fun x => if g x then h x else []) l = flat_map h (filter g l).
Proof.
  induction l as [|a l IH]; simpl; [reflexivity|].
  destruct (g a); simpl; now rewrite IH.
Qed.

Lemma flat_map_singleton {A : Type} (l : list A) :
  flat_map (fun x => [x]) l = l.
Proof.
  induction l as [|a l IH]; simpl; [reflexivity | now rewrite IH].
Qed.

Lemma joined_rows_stacks (names : list string) (l : list Stack.t) :
  map row_stack
    (filter_package_in names (join_packages (map (fun s => mkRow s None) l)))
  = flat_map
      (fun s => map (fun _ => s)
                    (filter (fun p => mem p names) (Stack.packages s)))
      l.
Proof.
  unfold filter_package_in, join_packages.
  induction l as [|a l IH]; simpl; [reflexivity|].
  rewrite filter_app, map_app, IH. f_equal.
  rewrite filter_map_swap, map_map. simpl. reflexivity.
Qed.

(** The rows of the query before pagination are the rows the request asks
    for, in some order. *)
Lemma filtered_query_rows {backend : Backend} (data : ListData)
    (table : list Stack.t) :
  Permutation (map row_stack (filtered_query data table))
              (requested_rows data table).
Proof.
  unfold requested_rows. rewrite flat_map_filter.
  set (G := stack_matches
              (mkListData (q_name data) (q_like data) [] (q_page data)
                 (q_rows_per_page data))).
  assert (Hnamed : Permutation (named_query data table)
                     (map (fun s => mkRow s None) (filter G table))).
  { unfold named_query, filter_by_name, filter_name_like.
    rewrite (optional_filter_eq (q_name data) (fun n r => row_name r =? n)).
    rewrite (optional_filter_eq (q_like data)
               (fun l r => sql_like (like_pattern l) (row_name r))).
    rewrite filter_twice.
    unfold order_by_name_desc.
    etransitivity;
      [apply Permutation_filter, Permutation_sym, RowSort.Permuted_sort|].
    unfold query_Stack. rewrite filter_map_swap.
    apply Permutation_refl'. f_equal. apply filter_ext. intros s.
    unfold G, stack_matches, row_name. simpl. now rewrite andb_true_r. }
  unfold filtered_query.
  destruct (q_packages data) as [|p0 ps] eqn:Ep; simpl truthy_list; cbv iota.
  - rewrite flat_map_singleton.
    etransitivity; [apply Permutation_map, Hnamed|].
    rewrite map_map. simpl. rewrite map_id. reflexivity.
  - rewrite <- joined_rows_stacks. apply Permutation_map.
    unfold filter_package_in. apply Permutation_filter.
    unfold join_packages. now apply Permutation_flat_map.
Qed.

(** C9 as stated fails on the substring reading of the [like] filter: on
    either backend the view finds the stack "abc" for [like = "a_c"], which
    is no part of that name, and on the backend that sets the case of
    letters aside also for [like = "AB"]. *)
Lemma query_stacks_like_is_not_substring :
  query_stacks (backend := exact_like)
    (mkListData None (Some "a_c") [] 1 10) [abc_stack]
    = inr (mkListResult [abc_stack] 1 1 10 1)
  /\ query_stacks (backend := nocase_like)
       (mkListData None (Some "a_c") [] 1 10) [abc_stack]
     = inr (mkListResult [abc_stack] 1 1 10 1)
  /\ ~ substring_of "a_c" (Stack.name abc_stack)
  /\ query_stacks (backend := nocase_like)
       (mkListData None (Some "AB") [] 1 10) [abc_stack]
     = inr (mkListResult [abc_stack] 1 1 10 1)
  /\ ~ substring_of "AB" (Stack.name abc_stack).
Proof.
  split; [vm_compute; reflexivity|].
  split; [vm_compute; reflexivity|].
  split; [|split; [vm_compute; reflexivity|]].
  - intros [pre [post H]]. simpl in H.
    destruct pre as [|c1 [|c2 [|c3 [|c4 pre]]]]; simpl in H; discriminate.
  - intros [pre [post H]]. simpl in H.
    destruct pre as [|c1 [|c2 [|c3 [|c4 pre]]]]; simpl in H; discriminate.
Qed.

(** C9, amended. Every stack the view returns is a stack of the table that
    passes all the filters of the request: its name is the requested name,
    its name matches the pattern [%like%] under the LIKE of the database,
    and one of its packages is among the requested ones. The rows of the
    query are the rows the request asks for, in descending order of name;
    their number is the total, and the page is cut out of them at
    [rows_per_page * (page - 1)], [rows_per_page] rows long, each stack
    once. On the first page of a request whose total fits the page every
    stack that passes the filters is returned. The LIKE filter keeps every
    stack whose name holds the text (a text without backslash); for a text
    without [%], [_] and backslash it keeps only stacks whose name holds
    the text when the case of ASCII letters is set aside. A request for one
    package alone returns exactly the stacks that have this package. *)
Theorem query_stacks_filters {backend : Backend} (data : ListData)
    (table : list Stack.t) (res : ListResult) :
  query_stacks data table = inr res ->
  (forall s, In s (stacks res) ->
     In s table /\ name_ok data s /\ like_ok data s /\ packages_ok data s)
  /\ (exists rows,
        Permutation rows (requested_rows data table)
        /\ StronglySorted name_ge rows
        /\ total res = Z.of_nat (List.length rows)
        /\ stacks res
           = unique_list
               (firstn (Z.to_nat (rows_per_page res))
                  (skipn (Z.to_nat (rows_per_page res * (page res - 1)))
                     rows)))
  /\ (q_page data = 1%Z -> (total res <= q_rows_per_page data)%Z ->
      forall s, In s table -> name_ok data s -> like_ok data s ->
                packages_ok data s -> In s (stacks res))
  /\ StronglySorted name_ge (stacks res)
  /\ (forall like n, no_backslash like = true ->
        substring_of like n -> sql_like (like_pattern like) n = true)
  /\ (forall like n, plain_text like = true ->
        sql_like (like_pattern like) n = true ->
        substring_of (lower like) (lower n))
  /\ (forall p, q_name data = None -> q_like data = None ->
        q_packages data = [p] ->
        q_page data = 1%Z -> (total res <= q_rows_per_page data)%Z ->
        forall s, In s (stacks res) <-> In s table /\ In p (Stack.packages s)).
Proof.
  intros H. apply query_stacks_inr in H.
  destruct H as [Hnz [Hoff [Hpos Hres]]].
  set (q := filtered_query data table) in *.
  assert (Hsound : forall s, In s (stacks res) ->
            In s table /\ name_ok data s /\ like_ok data s /\ packages_ok data s).
  { intros s Hs. rewrite Hres in Hs. simpl in Hs. unfold all in Hs.
    apply (proj1 (unique_list_In _ _)) in Hs. apply in_map_iff in Hs.
    destruct Hs as [row [<- Hrow]].
    apply (filtered_query_In data table). apply in_map.
    exact (In_page _ _ _ _ Hrow). }
  assert (Hcomplete : q_page data = 1%Z ->
            (total res <= q_rows_per_page data)%Z ->
            forall s, In s table -> name_ok data s -> like_ok data s ->
                      packages_ok data s -> In s (stacks res)).
  { intros Hpage Htot s Hs Hn Hl Hp. rewrite Hres in *. simpl in *.
    unfold all. apply unique_list_In. rewrite Hpage. replace
      (q_rows_per_page data * (1 - 1))%Z with 0%Z by lia.
    simpl. rewrite firstn_all2 by (unfold count in Htot; lia).
    apply (filtered_query_In data table). tauto. }
  split; [exact Hsound|]. split.
  { exists (map row_stack q). split; [apply filtered_query_rows|].
    split; [apply map_row_stack_sorted, filtered_query_sorted|].
    rewrite Hres. simpl. unfold count, all.
    split; [now rewrite length_map|].
    now rewrite skipn_map, firstn_map. }
  split; [exact Hcomplete|]. split; [|split; [|split]].
  - rewrite Hres. simpl. unfold all.
    apply unique_list_sorted, map_row_stack_sorted.
    apply StronglySorted_firstn, StronglySorted_skipn.
    apply filtered_query_sorted.
  - intros like n Hb Hsub. apply sql_like_exact.
    + now rewrite no_backslash_pattern.
    + now apply like_pattern_contains.
  - intros like n Hplain Hlike. apply sql_like_nocase in Hlike.
    + rewrite lower_pattern in Hlike.
      now apply (like_pattern_substring _ _ (plain_text_lower _ Hplain)).
    + rewrite no_backslash_pattern. now apply plain_text_no_backslash.
  - intros p Hn Hl Hp Hpage Htot s. split.
    + intros Hs. destruct (Hsound s Hs) as [Ht [_ [_ Hpk]]].
      split; [exact Ht|]. unfold packages_ok in Hpk. rewrite Hp in Hpk.
      destruct Hpk as [p' [Hp1 [<- | []]]]; [discriminate | exact Hp1].
    + intros [Ht Hpk]. apply (Hcomplete Hpage Htot s Ht).
      * intros n' Hn'. congruence.
      * intros l' Hl'. congruence.
      * intros _. exists p. split; [exact Hpk|]. rewrite Hp. now left.
Qed.

Lemma query_stacks_filters_witness :
  query_stacks (backend := nocase_like) gtk_query [desktop_stack; web_stack]
    = inr (mkListResult [desktop_stack] 1 1 10 1)
  /\ (In desktop_stack [desktop_stack] <->
      In desktop_stack [desktop_stack; web_stack]
      /\ In "gtk3" (Stack.packages desktop_stack))
  /\ (In web_stack [desktop_stack] <->
      In web_stack [desktop_stack; web_stack]
      /\ In "gtk3" (Stack.packages web_stack)).
Proof.
  split; [reflexivity|].
  destruct (query_stacks_filters (backend := nocase_like) gtk_query
              [desktop_stack; web_stack]
              (mkListResult [desktop_stack] 1 1 10 1) eq_refl)
    as [_ [_ [_ [_ [_ [_ H]]]]]].
  assert (Hfit : (total (mkListResult [desktop_stack] 1 1 10 1)
                  <= q_rows_per_page gtk_query)%Z)
    by (vm_compute; discriminate).
  split; exact (H "gtk3" eq_refl eq_refl eq_refl eq_refl Hfit _).
Defined.

(** C10. The view fails with the division error exactly when the page size
    of the request is 0, whatever the table and the rest of the request:
    no test of the page size stands before the division. *)
Theorem query_stacks_zero_division {backend : Backend} (data : ListData) (table : list Stack.t) :
  query_stacks data table = inl ZeroDivisionError <-> q_rows_per_page data = 0%Z.
Proof.
  unfold query_stacks, ceil_div, offset, limit. split.
  - destruct (Z.eqb_spec (q_rows_per_page data) 0) as [E | E]; [trivial|].
    destruct (q_rows_per_page data * (q_page data - 1) <? 0)%Z; [discriminate|].
    destruct (max_int64 <? q_rows_per_page data * (q_page data - 1))%Z;
      [discriminate|].
    destruct (q_rows_per_page data <? 0)%Z; [discriminate|].
    destruct (max_int64 <? q_rows_per_page data)%Z; discriminate.
  - intros ->. reflexivity.
Qed.

(* ------------------------------------------------------------------ *)
(** * Further properties of the views *)

(** ** Rows and names *)

Lemma get_replace_row_other (n : string) (s' : Stack.t) (table : list Stack.t) :
  n <> Stack.name s' ->
  Stack.get n (replace_row s' table) = Stack.get n table.
Proof.
  intros Hn. unfold Stack.get.
  induction table as [|a table IH]; simpl; [reflexivity|].
  destruct (Stack.name a =? Stack.name s') eqn:E; simpl.
  - apply String.eqb_eq in E.
    assert (H1 : (Stack.name s' =? n) = false)
      by (apply String.eqb_neq; congruence).
    assert (H2 : (Stack.name a =? n) = false)
      by (apply String.eqb_neq; congruence).
    now rewrite H1, H2.
  - destruct (Stack.name a =? n); [reflexivity | exact IH].
Qed.

Lemma get_app_other (n : string) (table : list Stack.t) (x : Stack.t) :
  n <> Stack.name x ->
  Stack.get n (table ++ [x]) = Stack.get n table.
Proof.
  intros Hn. unfold Stack.get.
  induction table as [|a table IH]; simpl.
  - assert (H : (Stack.name x =? n) = false)
      by (apply String.eqb_neq; congruence).
    now rewrite H.
  - destruct (Stack.name a =? n); [reflexivity | exact IH].
Qed.

Lemma replace_row_names (s' : Stack.t) (table : list Stack.t) :
  map Stack.name (replace_row s' table) = map Stack.name table.
Proof.
  induction table as [|a table IH]; simpl; [reflexivity|].
  destruct (Stack.name a =? Stack.name s') eqn:E; simpl.
  - apply String.eqb_eq in E. now rewrite E.
  - now rewrite IH.
Qed.

Lemma get_None_names (n : string) (table : list Stack.t) :
  Stack.get n table = None <-> ~ In n (map Stack.name table).
Proof.
  unfold Stack.get. induction table as [|a table IH]; simpl; [tauto|].
  destruct (Stack.name a =? n) eqn:E.
  - apply String.eqb_eq in E. split; [discriminate | tauto].
  - apply String.eqb_neq in E. rewrite IH. tauto.
Qed.

Lemma filter_other_names (n : string) (table : list Stack.t) :
  Stack.get n table = None ->
  filter (fun x => negb (Stack.name x =? n)) table = table.
Proof.
  unfold Stack.get. induction table as [|a table IH]; simpl; [reflexivity|].
  destruct (Stack.name a =? n); [discriminate|]. simpl.
  intros H. now rewrite IH.
Qed.

Lemma replace_row_fresh (n : string) (new s' : Stack.t) (table : list Stack.t) :
  Stack.get n table = None -> Stack.name new = n -> Stack.name s' = n ->
  replace_row s' (table ++ [new]) = (table ++ [s'])%list.
Proof.
  intros Hget Hnew Hs'. unfold Stack.get in Hget.
  induction table as [|a table IH]; simpl in *.
  - rewrite Hnew, Hs'. now rewrite String.eqb_refl.
  - rewrite Hs'. destruct (Stack.name a =? n); [discriminate|].
    f_equal. now apply IH.
Qed.

Lemma write_rows_names (s' : Stack.t) (table : list Stack.t) :
  map Stack.name (write_rows s' table) = map Stack.name table.
Proof.
  unfold write_rows. now rewrite replace_row_names, release_names.
Qed.

Lemma get_write_rows_other (n : string) (s' : Stack.t) (table : list Stack.t) :
  n <> Stack.name s' ->
  Stack.get n (write_rows s' table)
  = option_map (release s') (Stack.get n table).
Proof.
  intros Hn. unfold write_rows.
  now rewrite get_replace_row_other, get_release.
Qed.

Lemma write_rows_fresh (n : string) (new s' : Stack.t) (table : list Stack.t) :
  Stack.get n table = None -> Stack.name new = n -> Stack.name s' = n ->
  write_rows s' (table ++ [new]) = (map (release s') table ++ [s'])%list.
Proof.
  intros Hget Hnew Hs'. unfold write_rows. rewrite map_app. simpl.
  apply (replace_row_fresh n).
  - now rewrite get_release, Hget.
  - now rewrite release_name.
  - exact Hs'.
Qed.

(** A row that holds none of the packages of [s] gives up nothing. *)
Lemma release_disjoint (s row : Stack.t) :
  (forall p, In p (Stack.packages s) -> ~ In p (Stack.packages row)) ->
  release s row = row.
Proof.
  intros H. unfold release.
  destruct (Stack.name row =? Stack.name s); [reflexivity|].
  rewrite (filter_ext_in _ (fun _ => true)).
  - rewrite filter_true. now destruct row.
  - intros p Hp. apply negb_true_iff, mem_false_In. intros Hs.
    now apply (H p Hs).
Qed.

(** The two ways a save runs, by the row it finds. *)
Lemma save_stack_found (merge : list string -> list string -> list string)
    (data : SaveData) (user : User) (r : Request) (s : Stack.t) :
  Stack.get (data_name data) (db_table r) = Some s ->
  save_stack merge data user r =
    if may_modify user s then saved (apply_save merge data s) r
    else refused user s r.
Proof.
  intros H. apply save_stack_unfold. now apply fetch_or_create_found.
Qed.

Lemma save_stack_fresh (merge : list string -> list string -> list string)
    (data : SaveData) (user : User) (r : Request) :
  Stack.get (data_name data) (db_table r) = None ->
  save_stack merge data user r =
    saved (apply_save merge data
             (Stack.mk (data_name data) None [] [user_name user] []))
      (mkRequest
         (db_table r
            ++ (db_pending r
                  ++ [Stack.mk (data_name data) None [] [user_name user] []]))
         [] (errors r) (errors_status r) (published r)).
Proof.
  intros H.
  rewrite (save_stack_unfold merge _ _ _ _ _ (fetch_or_create_new data user r H)).
  unfold may_modify, is_owner, mem. simpl. now rewrite String.eqb_refl.
Qed.

(** ** save_stack and the other rows *)

Lemma save_stack_outcome_name
    (merge : list string -> list string -> list string)
    (data : SaveData) (user : User) (r : Request) :
  fst (save_stack merge data user r) = None
  \/ exists s', fst (save_stack merge data user r) = Some s'
                /\ Stack.name s' = data_name data.
Proof.
  destruct (Stack.get (data_name data) (db_table r)) as [s|] eqn:Hget.
  - rewrite (save_stack_found merge data user r s Hget).
    destruct (may_modify user s); simpl; [right | now left].
    eexists. split; [reflexivity|].
    now rewrite apply_save_name, (get_name _ _ _ Hget).
  - rewrite (save_stack_fresh merge data user r Hget). simpl. right.
    eexists. split; [reflexivity | apply apply_save_name].
Qed.

Lemma release_other (s row : Stack.t) :
  Stack.name row <> Stack.name s ->
  Stack.name (release s row) = Stack.name row
  /\ Stack.description (release s row) = Stack.description row
  /\ Stack.users (release s row) = Stack.users row
  /\ Stack.groups (release s row) = Stack.groups row
  /\ (forall p, In p (Stack.packages (release s row)) <->
                In p (Stack.packages row) /\ ~ In p (Stack.packages s)).
Proof.
  intros Hn. unfold release. apply String.eqb_neq in Hn. rewrite Hn. simpl.
  split; [reflexivity|]. split; [reflexivity|].
  split; [reflexivity|]. split; [reflexivity|].
  intros p. rewrite filter_In, negb_true_iff, mem_false_In. tauto.
Qed.

Lemma save_stack_other_rows
    (merge : list string -> list string -> list string)
    (data : SaveData) (user : User) (r : Request) (n : string) :
  db_pending r = [] ->
  n <> data_name data ->
  Stack.get n (db_table (snd (save_stack merge data user r)))
  = match fst (save_stack merge data user r) with
    | Some s' => option_map (release s') (Stack.get n (db_table r))
    | None => Stack.get n (db_table r)
    end.
Proof.
  intros Hpend Hn.
  destruct (Stack.get (data_name data) (db_table r)) as [s|] eqn:Hget.
  - rewrite (save_stack_found merge data user r s Hget).
    destruct (may_modify user s); simpl; [|reflexivity].
    apply get_write_rows_other. rewrite apply_save_name.
    now rewrite (get_name _ _ _ Hget).
  - rewrite (save_stack_fresh merge data user r Hget). simpl. rewrite Hpend.
    simpl. rewrite get_write_rows_other by (now rewrite apply_save_name).
    f_equal. now apply get_app_other.
Qed.

(** X1. A save in a session with nothing pending leaves the stacks of other
    names in the table, each with its name, description, users and groups.
    A package belongs to one stack: of the packages of another stack those
    stay that the saved stack does not hold after the save, and when the
    save is refused all stay. No stack of another name appears. *)
Theorem save_stack_other_stacks
    (merge : list string -> list string -> list string)
    (data : SaveData) (user : User) (r : Request) (n : string) :
  db_pending r = [] ->
  n <> data_name data ->
  (Stack.get n (db_table r) = None ->
   Stack.get n (db_table (snd (save_stack merge data user r))) = None)
  /\ (forall a,
        Stack.get n (db_table r) = Some a ->
        exists b,
          Stack.get n (db_table (snd (save_stack merge data user r))) = Some b
          /\ Stack.name b = Stack.name a
          /\ Stack.description b = Stack.description a
          /\ Stack.users b = Stack.users a
          /\ Stack.groups b = Stack.groups a
          /\ (forall p,
                In p (Stack.packages b) <->
                In p (Stack.packages a)
                /\ (forall s', fst (save_stack merge data user r) = Some s' ->
                                ~ In p (Stack.packages s')))).
Proof.
  intros Hpend Hn.
  rewrite (save_stack_other_rows merge data user r n Hpend Hn).
  destruct (save_stack_outcome_name merge data user r) as [Hnone | [s' [Hs' Hname]]].
  - rewrite Hnone. split; [trivial|]. intros a Ha. exists a.
    split; [exact Ha|]. do 4 (split; [reflexivity|]). intros p. split.
    + intros Hp. split; [exact Hp|]. intros s' Hs'. discriminate.
    + tauto.
  - rewrite Hs'. split; [intros H; now rewrite H|].
    intros a Ha. rewrite Ha. simpl. exists (release s' a).
    assert (Hne : Stack.name a <> Stack.name s')
      by (rewrite (get_name _ _ _ Ha), Hname; exact Hn).
    destruct (release_other s' a Hne) as [H1 [H2 [H3 [H4 H5]]]].
    split; [reflexivity|]. do 4 (split; [assumption|]). intros p. split.
    + intros Hp. apply H5 in Hp. destruct Hp as [Hp Hnot].
      split; [exact Hp|]. intros s'' Hs''. injection Hs'' as <-. exact Hnot.
    + intros [Hp Hnot]. apply H5. split; [exact Hp | now apply Hnot].
Qed.

Lemma save_stack_other_stacks_witness :
  exists b,
    Stack.get "web"
      (db_table (snd (save_stack reconciled takeover_data mallory web_request)))
    = Some b
    /\ Stack.name b = Stack.name web_stack
    /\ Stack.description b = Stack.description web_stack
    /\ Stack.users b = Stack.users web_stack
    /\ Stack.groups b = Stack.groups web_stack
    /\ (forall p,
          In p (Stack.packages b) <->
          In p (Stack.packages web_stack)
          /\ (forall s',
                fst (save_stack reconciled takeover_data mallory web_request)
                = Some s' ->
                ~ In p (Stack.packages s'))).
Proof.
  apply (save_stack_other_stacks reconciled takeover_data mallory web_request
           "web").
  - reflexivity.
  - discriminate.
  - reflexivity.
Defined.

(** X2. A save never renames or drops a row: in a session with nothing
    pending the names of the table stay as they are when the name of the
    request is there, and gain this one name at the end when it is not. So
    a table with unique names keeps unique names. *)
Theorem save_stack_names
    (merge : list string -> list string -> list string)
    (data : SaveData) (user : User) (r : Request) :
  db_pending r = [] ->
  map Stack.name (db_table (snd (save_stack merge data user r)))
  = match Stack.get (data_name data) (db_table r) with
    | Some _ => map Stack.name (db_table r)
    | None => (map Stack.name (db_table r) ++ [data_name data])%list
    end
  /\ (names_unique (db_table r) ->
      names_unique (db_table (snd (save_stack merge data user r)))).
Proof.
  intros Hpend. unfold names_unique.
  destruct (Stack.get (data_name data) (db_table r)) as [s|] eqn:Hget.
  - rewrite (save_stack_found merge data user r s Hget).
    assert (H : map Stack.name
                  (db_table (snd (if may_modify user s
                                  then saved (apply_save merge data s) r
                                  else refused user s r)))
                = map Stack.name (db_table r)).
    { destruct (may_modify user s); simpl; [apply write_rows_names | reflexivity]. }
    rewrite H. split; [reflexivity | trivial].
  - rewrite (save_stack_fresh merge data user r Hget). simpl.
    rewrite Hpend. simpl. rewrite write_rows_names, map_app. simpl.
    split; [reflexivity|]. intros Hnd.
    apply NoDup_rev in Hnd. rewrite <- (rev_involutive (_ ++ _)).
    apply NoDup_rev. rewrite rev_app_distr. simpl. constructor; [|exact Hnd].
    rewrite <- in_rev. now apply get_None_names.
Qed.

Lemma save_stack_names_witness :
  map Stack.name
    (db_table (snd (save_stack reconciled mail_data mallory web_request)))
  = ["web"; "mail"]
  /\ (names_unique (db_table web_request) ->
      names_unique
        (db_table (snd (save_stack reconciled mail_data mallory web_request)))).
Proof.
  apply (save_stack_names reconciled mail_data mallory web_request).
  reflexivity.
Defined.

(** X3. A save ends in one of two ways. Either it returns a stack of the
    requested name and publishes exactly one [stack.save] message, which
    carries this stack, and leaves the errors and their status alone; or it
    returns nothing, adds exactly one error with the status of Forbidden,
    publishes nothing and leaves the table and the session alone. *)
Theorem save_stack_outcome
    (merge : list string -> list string -> list string)
    (data : SaveData) (user : User) (r : Request) :
  (exists s',
      fst (save_stack merge data user r) = Some s'
      /\ Stack.name s' = data_name data
      /\ published (snd (save_stack merge data user r))
         = (published r ++ [("stack.save", s')])%list
      /\ errors (snd (save_stack merge data user r)) = errors r
      /\ errors_status (snd (save_stack merge data user r)) = errors_status r)
  \/ (fst (save_stack merge data user r) = None
      /\ published (snd (save_stack merge data user r)) = published r
      /\ List.length (errors (snd (save_stack merge data user r)))
         = S (List.length (errors r))
      /\ errors_status (snd (save_stack merge data user r))
         = Some HTTPForbidden_code
      /\ db_table (snd (save_stack merge data user r)) = db_table r
      /\ db_pending (snd (save_stack merge data user r)) = db_pending r).
Proof.
  destruct (Stack.get (data_name data) (db_table r)) as [s|] eqn:Hget.
  - rewrite (save_stack_found merge data user r s Hget).
    destruct (may_modify user s); simpl.
    + left. eexists. split; [reflexivity|].
      rewrite apply_save_name, (get_name _ _ _ Hget). repeat split.
    + right. rewrite length_app. simpl. repeat split. lia.
  - rewrite (save_stack_fresh merge data user r Hget). simpl.
    left. eexists. split; [reflexivity|].
    rewrite apply_save_name. repeat split.
Qed.

(** ** save_stack after save_stack *)

Lemma merge_exact_nil (merge : list string -> list string -> list string)
    (current : list string) :
  merge_exact merge -> merge current [] = [].
Proof.
  intros Hm. destruct (merge current []) as [|x l] eqn:E; [reflexivity|].
  exfalso. apply (proj1 (Hm current [] x)). rewrite E. now left.
Qed.

Lemma merge_exact_not_nil (merge : list string -> list string -> list string)
    (current desired : list string) :
  merge_exact merge -> desired <> [] -> merge current desired <> [].
Proof.
  intros Hm Hd E. destruct desired as [|x l]; [now elim Hd|].
  assert (H : In x (merge current (x :: l))) by (apply Hm; now left).
  now rewrite E in H.
Qed.

(** X4. When the relationship update yields exactly the requested items, a
    second save with the same arguments changes nothing that the first one
    set: whether it goes through or is refused, the stack under this name
    has afterwards the name and description the first save returned, and
    the same packages, users and groups. *)
Theorem save_stack_twice
    (merge : list string -> list string -> list string)
    (data : SaveData) (user : User) (r r1 : Request) (s1 : Stack.t) :
  merge_exact merge ->
  save_stack merge data user r = (Some s1, r1) ->
  exists s2,
    Stack.get (data_name data)
      (db_table (snd (save_stack merge data user r1))) = Some s2
    /\ Stack.name s2 = Stack.name s1
    /\ Stack.description s2 = Stack.description s1
    /\ same_set (Stack.packages s2) (Stack.packages s1)
    /\ same_set (Stack.users s2) (Stack.users s1)
    /\ same_set (Stack.groups s2) (Stack.groups s1).
Proof.
  intros Hm Hs. pose proof (save_stack_row _ _ _ _ _ _ Hs) as Hrow.
  unfold merge_exact in Hm.
  destruct (fetch_or_create data user r) as [s0 r0] eqn:Hf.
  destruct (save_stack_result _ _ _ _ _ _ _ _ Hf Hs) as [Hs1 _].
  rewrite (save_stack_found merge data user r1 s1 Hrow).
  destruct (may_modify user s1); simpl.
  - exists (apply_save merge data s1).
    split; [apply (get_write_rows _ _ s1 _ Hrow);
            rewrite apply_save_name; now apply get_name in Hrow|].
    split; [apply apply_save_name|].
    split.
    + rewrite apply_save_description, Hs1, apply_save_description.
      destruct (data_description data) as [d|]; [destruct (d =? "")|];
        reflexivity.
    + assert (Hrel : forall rel,
                same_set (Stack.rel rel (apply_save merge data s1))
                         (Stack.rel rel s1)).
      { intros rel x. rewrite apply_save_rel, Hm.
        rewrite Hs1, apply_save_rel, Hm. tauto. }
      split; [exact (Hrel Packages)|].
      split; [exact (Hrel Users) | exact (Hrel Groups)].
  - exists s1. split; [exact Hrow|]. repeat split; auto.
Qed.

Lemma save_stack_twice_witness :
  exists s2,
    Stack.get "web"
      (db_table
         (snd (save_stack reconciled web_data alice
                 (snd (save_stack reconciled web_data alice web_request)))))
    = Some s2
    /\ Stack.name s2 = Stack.name (apply_save reconciled web_data web_stack)
    /\ Stack.description s2
       = Stack.description (apply_save reconciled web_data web_stack)
    /\ same_set (Stack.packages s2)
         (Stack.packages (apply_save reconciled web_data web_stack))
    /\ same_set (Stack.users s2)
         (Stack.users (apply_save reconciled web_data web_stack))
    /\ same_set (Stack.groups s2)
         (Stack.groups (apply_save reconciled web_data web_stack)).
Proof.
  exact (save_stack_twice reconciled web_data alice web_request
           (snd (save_stack reconciled web_data alice web_request))
           (apply_save reconciled web_data web_stack)
           reconciled_In eq_refl).
Defined.

(** X5. When the relationship update yields exactly the requested items, a
    save can take the saver's own access away: after a save that went
    through with a request that names some users or groups, but neither
    the acting user nor one of the acting user's groups, every further save
    of this stack by the same user is refused. *)
Theorem save_stack_locks_out
    (merge : list string -> list string -> list string)
    (data data2 : SaveData) (user : User) (r r1 : Request) (s1 : Stack.t) :
  merge_exact merge ->
  save_stack merge data user r = (Some s1, r1) ->
  data_name data2 = data_name data ->
  data_users data <> [] \/ data_groups data <> [] ->
  ~ In (user_name user) (data_users data) ->
  (forall g, In g (user_groups user) -> ~ In g (data_groups data)) ->
  save_stack merge data2 user r1 = refused user s1 r1.
Proof.
  intros Hm Hs Hname Hne Hu Hg.
  pose proof (save_stack_row _ _ _ _ _ _ Hs) as Hrow.
  destruct (fetch_or_create data user r) as [s0 r0] eqn:Hf.
  destruct (save_stack_result _ _ _ _ _ _ _ _ Hf Hs) as [Hs1 _].
  rewrite <- Hname in Hrow.
  rewrite (save_stack_found merge data2 user r1 s1 Hrow).
  assert (Husers : Stack.users s1 = merge (Stack.users s0) (data_users data))
    by (rewrite Hs1; apply (apply_save_rel merge data s0 Users)).
  assert (Hgroups : Stack.groups s1 = merge (Stack.groups s0) (data_groups data))
    by (rewrite Hs1; apply (apply_save_rel merge data s0 Groups)).
  rewrite may_modify_owned.
  - destruct (is_owner user s1) eqn:Ho; [|reflexivity]. exfalso.
    apply is_owner_spec in Ho. destruct Ho as [H | [g [H1 H2]]].
    + rewrite Husers in H. apply Hm in H. now apply Hu.
    + rewrite Hgroups in H2. apply Hm in H2. now apply (Hg g).
  - rewrite Husers, Hgroups.
    destruct Hne as [H | H]; [left | right]; now apply merge_exact_not_nil.
Qed.

Lemma save_stack_locks_out_witness :
  save_stack reconciled web_data carol
    (snd (save_stack reconciled web_data carol web_request))
  = refused carol (apply_save reconciled web_data web_stack)
      (snd (save_stack reconciled web_data carol web_request)).
Proof.
  apply (save_stack_locks_out reconciled web_data web_data carol web_request
           (snd (save_stack reconciled web_data carol web_request))
           (apply_save reconciled web_data web_stack) reconciled_In).
  - reflexivity.
  - reflexivity.
  - left. discriminate.
  - simpl. intros [H | [H | []]]; discriminate.
  - simpl. intros g _ [].
Defined.

(** X6. When the relationship update yields exactly the requested items, a
    save that went through with no users and no groups in the request
    leaves the stack without owners: every further save of this stack goes
    through, whoever the acting user is. *)
Theorem save_stack_opens
    (merge : list string -> list string -> list string)
    (data data2 : SaveData) (user user2 : User) (r r1 : Request) (s1 : Stack.t) :
  merge_exact merge ->
  save_stack merge data user r = (Some s1, r1) ->
  data_name data2 = data_name data ->
  data_users data = [] ->
  data_groups data = [] ->
  save_stack merge data2 user2 r1 = saved (apply_save merge data2 s1) r1.
Proof.
  intros Hm Hs Hname Hu Hg.
  pose proof (save_stack_row _ _ _ _ _ _ Hs) as Hrow.
  destruct (fetch_or_create data user r) as [s0 r0] eqn:Hf.
  destruct (save_stack_result _ _ _ _ _ _ _ _ Hf Hs) as [Hs1 _].
  rewrite <- Hname in Hrow.
  rewrite (save_stack_found merge data2 user2 r1 s1 Hrow).
  assert (Husers : Stack.users s1 = merge (Stack.users s0) (data_users data))
    by (rewrite Hs1; apply (apply_save_rel merge data s0 Users)).
  assert (Hgroups : Stack.groups s1 = merge (Stack.groups s0) (data_groups data))
    by (rewrite Hs1; apply (apply_save_rel merge data s0 Groups)).
  rewrite may_modify_unowned; [reflexivity| |].
  - rewrite Husers, Hu. now apply merge_exact_nil.
  - rewrite Hgroups, Hg. now apply merge_exact_nil.
Qed.

Lemma save_stack_opens_witness :
  save_stack reconciled web_data mallory
    (snd (save_stack reconciled open_data alice web_request))
  = saved (apply_save reconciled web_data
             (apply_save reconciled open_data web_stack))
      (snd (save_stack reconciled open_data alice web_request)).
Proof.
  apply (save_stack_opens reconciled open_data web_data alice mallory
           web_request
           (snd (save_stack reconciled open_data alice web_request))
           (apply_save reconciled open_data web_stack) reconciled_In);
    reflexivity.
Defined.

(** ** get_stack and delete_stack after save_stack *)

(** X7. After a save that went through, a GET of the name of the request
    returns the very stack the save returned, and changes nothing. *)
Theorem stack_get_after_save
    (merge : list string -> list string -> list string)
    (data : SaveData) (user : User) (r r' : Request) (s' : Stack.t) :
  save_stack merge data user r = (Some s', r') ->
  stack_get (data_name data) r' = (Some s', r').
Proof.
  intros Hs. unfold stack_get, validate_stack, get_stack, bind, db_get, ret.
  now rewrite (save_stack_row _ _ _ _ _ _ Hs).
Qed.

Lemma stack_get_after_save_witness :
  stack_get "web" (snd (save_stack reconciled web_data alice web_request))
  = (Some (apply_save reconciled web_data web_stack),
     snd (save_stack reconciled web_data alice web_request)).
Proof.
  exact (stack_get_after_save reconciled web_data alice web_request
           (snd (save_stack reconciled web_data alice web_request))
           (apply_save reconciled web_data web_stack) eq_refl).
Defined.

(** X8. Creating a stack and deleting it again restores the table, when
    the new stack took no package from another stack: after a save under a
    name that no stack had, in a session with nothing pending, that
    returned a stack none of whose packages a row of the table held, the
    delete of this stack leaves exactly the rows there were before the
    save, and two messages published, [stack.save] then [stack.delete],
    both carrying the stack. *)
Theorem save_then_delete_restores
    (merge : list string -> list string -> list string)
    (data : SaveData) (user : User) (r r' : Request) (s' : Stack.t) :
  Stack.get (data_name data) (db_table r) = None ->
  db_pending r = [] ->
  save_stack merge data user r = (Some s', r') ->
  (forall row p, In row (db_table r) -> In p (Stack.packages s') ->
                 ~ In p (Stack.packages row)) ->
  db_table (snd (delete_stack s' r')) = db_table r
  /\ published (snd (delete_stack s' r'))
     = (published r ++ [("stack.save", s'); ("stack.delete", s')])%list.
Proof.
  intros Hget Hpend Hs Hfree.
  rewrite (save_stack_fresh merge data user r Hget) in Hs.
  set (new := Stack.mk (data_name data) None [] [user_name user] []) in *.
  unfold saved in Hs. injection Hs as Hs' Hr'. subst s' r'.
  assert (Hn : Stack.name (apply_save merge data new) = data_name data)
    by apply apply_save_name.
  rewrite delete_stack_run.
  cbn [snd db_table db_pending errors errors_status published].
  rewrite Hpend, Hn. cbn [app]. split.
  - rewrite (write_rows_fresh (data_name data) new _ _ Hget eq_refl Hn).
    rewrite (map_ext_in _ (fun row => row)), map_id.
    + rewrite filter_app, (filter_other_names _ _ Hget). cbn [filter].
      rewrite Hn, String.eqb_refl. apply app_nil_r.
    + intros row Hrow. apply release_disjoint. intros p Hp.
      now apply (Hfree row p).
  - rewrite <- app_assoc. reflexivity.
Qed.

Lemma save_then_delete_restores_witness :
  db_table
    (snd (delete_stack
            (apply_save reconciled mail_data
               (Stack.mk "mail" None [] ["mallory"] []))
            (snd (save_stack reconciled mail_data mallory web_request))))
  = db_table web_request
  /\ published
       (snd (delete_stack
               (apply_save reconciled mail_data
                  (Stack.mk "mail" None [] ["mallory"] []))
               (snd (save_stack reconciled mail_data mallory web_request))))
     = [("stack.save",
         apply_save reconciled mail_data (Stack.mk "mail" None [] ["mallory"] []));
        ("stack.delete",
         apply_save reconciled mail_data (Stack.mk "mail" None [] ["mallory"] []))].
Proof.
  apply (save_then_delete_restores reconciled mail_data mallory web_request
           (snd (save_stack reconciled mail_data mallory web_request))
           (apply_save reconciled mail_data
              (Stack.mk "mail" None [] ["mallory"] [])));
    try reflexivity.
  simpl. intros row p [<- | []] [<- | []] [H | []]. discriminate.
Defined.

(** ** delete_stack and the other rows *)

Lemma get_filter_other (n m : string) (table : list Stack.t) :
  n <> m ->
  Stack.get n (filter (fun x => negb (Stack.name x =? m)) table)
  = Stack.get n table.
Proof.
  intros Hn. unfold Stack.get.
  induction table as [|a table IH]; simpl; [reflexivity|].
  destruct (Stack.name a =? m) eqn:Em; simpl.
  - apply String.eqb_eq in Em.
    assert (H : (Stack.name a =? n) = false)
      by (apply String.eqb_neq; congruence).
    now rewrite H.
  - destruct (Stack.name a =? n); [reflexivity | exact IH].
Qed.

Lemma names_unique_filter (f : Stack.t -> bool) (table : list Stack.t) :
  names_unique table -> names_unique (filter f table).
Proof.
  unfold names_unique. induction table as [|a table IH]; simpl; [trivial|].
  intros H. inversion H as [|x l Hnotin Hnd]; subst.
  destruct (f a); simpl; [|now apply IH].
  constructor; [|now apply IH]. intros Hin. apply Hnotin.
  apply in_map_iff in Hin. destruct Hin as [y [Hy Hin]].
  apply filter_In in Hin. apply in_map_iff. exists y. tauto.
Qed.

(** X9. delete_stack touches one name only: every stack of another name is
    afterwards as the table held it, a table with unique names keeps unique
    names, and the errors and their status stay as they were. *)
Theorem delete_stack_other_stacks (s : Stack.t) (r : Request) (n : string) :
  n <> Stack.name s ->
  Stack.get n (db_table (snd (delete_stack s r))) = Stack.get n (db_table r)
  /\ (names_unique (db_table r) ->
      names_unique (db_table (snd (delete_stack s r))))
  /\ errors (snd (delete_stack s r)) = errors r
  /\ errors_status (snd (delete_stack s r)) = errors_status r.
Proof.
  intros Hn. rewrite delete_stack_run.
  cbn [snd db_table errors errors_status].
  split; [now apply get_filter_other|].
  split; [apply names_unique_filter | split; reflexivity].
Qed.

Lemma delete_stack_other_stacks_witness :
  Stack.get "web" (db_table (snd (delete_stack desktop_stack two_stacks)))
  = Stack.get "web" (db_table two_stacks)
  /\ (names_unique (db_table two_stacks) ->
      names_unique (db_table (snd (delete_stack desktop_stack two_stacks))))
  /\ errors (snd (delete_stack desktop_stack two_stacks)) = errors two_stacks
  /\ errors_status (snd (delete_stack desktop_stack two_stacks))
     = errors_status two_stacks.
Proof.
  apply (delete_stack_other_stacks desktop_stack two_stacks "web").
  discriminate.
Defined.

(** X10. A deleted name is free again: after delete_stack, in a session
    with nothing pending, a save under the name of the deleted stack goes
    through for every acting user, owner of the deleted stack or not, and
    works on a new stack that has the acting user as its only user and
    nothing of the description and the associations of the deleted one. *)
Theorem save_after_delete
    (merge : list string -> list string -> list string)
    (data : SaveData) (user : User) (s : Stack.t) (r : Request) :
  db_pending r = [] ->
  data_name data = Stack.name s ->
  exists r',
    save_stack merge data user (snd (delete_stack s r))
    = (Some (apply_save merge data
               (Stack.mk (data_name data) None [] [user_name user] [])), r')
    /\ errors r' = errors r
    /\ errors_status r' = errors_status r.
Proof.
  intros Hpend Hname.
  assert (Hget : Stack.get (data_name data)
                   (db_table (snd (delete_stack s r))) = None).
  { rewrite delete_stack_run. cbn [snd db_table]. rewrite Hname.
    apply get_after_delete. }
  rewrite (save_stack_fresh merge data user _ Hget).
  unfold saved. eexists. split; [reflexivity|].
  rewrite delete_stack_run. split; reflexivity.
Qed.

Lemma save_after_delete_witness :
  exists r',
    save_stack reconciled web_data mallory (snd (delete_stack web_stack web_request))
    = (Some (apply_save reconciled web_data
               (Stack.mk "web" None [] ["mallory"] [])), r')
    /\ errors r' = errors web_request
    /\ errors_status r' = errors_status web_request.
Proof.
  apply (save_after_delete reconciled web_data mallory web_stack web_request);
    reflexivity.
Defined.

(** ** The pages of query_stacks *)

Lemma unique_list_NoDup (l : list Stack.t) : NoDup (unique_list l).
Proof.
  induction l as [|a l IH]; simpl; constructor.
  - intros H. apply filter_In in H. destruct H as [_ H].
    unfold Stack.eqb in H. now destruct (Stack.eq_dec a a).
  - now apply NoDup_filter.
Qed.

Lemma unique_list_length (l : list Stack.t) :
  List.length (unique_list l) <= List.length l.
Proof.
  induction l as [|a l IH]; simpl; [lia|].
  pose proof (filter_length_le (fun x => negb (Stack.eqb a x)) (unique_list l)).
  lia.
Qed.

Lemma unique_list_id (l : list Stack.t) : NoDup l -> unique_list l = l.
Proof.
  induction 1 as [|a l Hnotin Hnd IH]; simpl; [reflexivity|].
  rewrite IH. f_equal.
  rewrite (filter_ext_in (fun x => negb (Stack.eqb a x)) (fun _ => true)).
  - apply filter_true.
  - intros x Hx. unfold Stack.eqb.
    destruct (Stack.eq_dec a x) as [E | E]; [now subst x | reflexivity].
Qed.

(** X11. A page never holds the same stack twice, never more stacks than
    the page size of the request, and never more than the total it
    reports. *)
Theorem query_stacks_page_bound {backend : Backend} (data : ListData) (table : list Stack.t)
    (res : ListResult) :
  query_stacks data table = inr res ->
  NoDup (stacks res)
  /\ (Z.of_nat (List.length (stacks res)) <= rows_per_page res)%Z
  /\ (Z.of_nat (List.length (stacks res)) <= total res)%Z.
Proof.
  intros H. apply query_stacks_inr in H.
  destruct H as [Hnz [Hoff [Hpos ->]]]. simpl. unfold all, count.
  split; [apply unique_list_NoDup|].
  set (q := filtered_query data table).
  set (a := Z.to_nat (q_rows_per_page data)).
  set (b := Z.to_nat (q_rows_per_page data * (q_page data - 1))).
  pose proof (unique_list_length (map row_stack (firstn a (skipn b q)))) as Hle.
  rewrite length_map, length_firstn, length_skipn in Hle.
  split; lia.
Qed.

Lemma query_stacks_page_bound_witness :
  NoDup [desktop_stack]
  /\ (Z.of_nat (List.length [desktop_stack]) <= 1)%Z
  /\ (Z.of_nat (List.length [desktop_stack]) <= 2)%Z.
Proof.
  exact (query_stacks_page_bound (backend := nocase_like) desktop_query [desktop_stack; web_stack]
           (mkListResult [desktop_stack] 1 2 1 2) eq_refl).
Defined.

(** X12. For a page number and a page size of at least 1 the view returns
    a result exactly when the page size and the offset
    [rows_per_page * (page - 1)] are within the 64 bits of a database
    integer, whatever the table and the filters: then the result repeats
    the page number and the page size of the request; beyond 64 bits the
    view raises. *)
Theorem query_stacks_returns {backend : Backend} (data : ListData) (table : list Stack.t) :
  (1 <= q_page data)%Z ->
  (1 <= q_rows_per_page data)%Z ->
  ((q_rows_per_page data <= max_int64)%Z ->
   (q_rows_per_page data * (q_page data - 1) <= max_int64)%Z ->
   exists res,
     query_stacks data table = inr res
     /\ page res = q_page data
     /\ rows_per_page res = q_rows_per_page data)
  /\ ((max_int64 < q_rows_per_page data)%Z
      \/ (max_int64 < q_rows_per_page data * (q_page data - 1))%Z ->
      exists e, query_stacks data table = inl e).
Proof.
  intros Hp Hr. unfold query_stacks, ceil_div, offset, limit.
  destruct (Z.eqb_spec (q_rows_per_page data) 0) as [E | E]; [lia|].
  destruct (Z.ltb_spec (q_rows_per_page data * (q_page data - 1)) 0) as [L | L];
    [nia|].
  destruct (Z.ltb_spec (q_rows_per_page data) 0) as [L' | L']; [lia|].
  split.
  - intros Hm Ho.
    destruct (Z.ltb_spec max_int64 (q_rows_per_page data * (q_page data - 1)))
      as [M | M]; [lia|].
    destruct (Z.ltb_spec max_int64 (q_rows_per_page data)) as [M' | M']; [lia|].
    eexists. split; [reflexivity|]. split; reflexivity.
  - intros Hbig.
    destruct (Z.ltb_spec max_int64 (q_rows_per_page data * (q_page data - 1)))
      as [M | M]; [now eexists|].
    destruct (Z.ltb_spec max_int64 (q_rows_per_page data)) as [M' | M'];
      [now eexists | lia].
Qed.

Lemma query_stacks_returns_witness :
  exists res,
    query_stacks (backend := nocase_like) desktop_query_page2 [desktop_stack; web_stack] = inr res
    /\ page res = 2%Z
    /\ rows_per_page res = 1%Z.
Proof.
  apply (proj1 (query_stacks_returns (backend := nocase_like) desktop_query_page2
                  [desktop_stack; web_stack] ltac:(vm_compute; discriminate)
                  ltac:(vm_compute; discriminate)));
    vm_compute; discriminate.
Defined.

(** X13. The number of pages a result reports lies between 0 and the
    total, and it is 0 exactly when the total is 0; then the page of the
    result is empty, whatever page was asked for. *)
Theorem query_stacks_pages_range {backend : Backend} (data : ListData) (table : list Stack.t)
    (res : ListResult) :
  query_stacks data table = inr res ->
  (0 <= pages res <= total res)%Z
  /\ (pages res = 0%Z <-> total res = 0%Z)
  /\ (total res = 0%Z -> stacks res = []).
Proof.
  intros H. pose proof (query_stacks_pagination data table res H)
    as [Ht [Hr [Hb _]]].
  assert (H0 : (0 <= total res)%Z) by (rewrite Ht; unfold count; lia).
  split; [nia|]. split; [split; intros; nia|].
  intros Hz. apply query_stacks_inr in H. destruct H as [_ [_ [_ ->]]].
  simpl in *. unfold count in Hz.
  destruct (filtered_query data table) as [|x q]; [|simpl in Hz; lia].
  now rewrite skipn_nil, firstn_nil.
Qed.

Lemma query_stacks_pages_range_witness :
  (0 <= 0 <= 0)%Z
  /\ (0%Z = 0%Z <-> 0%Z = 0%Z)
  /\ (0%Z = 0%Z -> @nil Stack.t = []).
Proof.
  exact (query_stacks_pages_range (backend := nocase_like) (mkListData (Some "none") None [] 3 10)
           [desktop_stack; web_stack] (mkListResult [] 3 0 10 0) eq_refl).
Defined.

(** X14. An empty string as name or as like filter is no filter: the view
    answers as it does when the request has no such value. *)
Theorem query_stacks_empty_filters {backend : Backend} (n l : option string) (p : list string)
    (pg rpp : Z) (table : list Stack.t) :
  query_stacks (mkListData (drop_empty n) (drop_empty l) p pg rpp) table
  = query_stacks (mkListData n l p pg rpp) table.
Proof.
  unfold query_stacks, filtered_query, named_query, drop_empty. simpl.
  destruct n as [n|]; destruct l as [l|];
    try destruct (n =? "") eqn:En; try destruct (l =? "") eqn:El;
    rewrite ?En, ?El; reflexivity.
Qed.

Lemma NoDup_page {A : Type} (a b : nat) (l : list A) :
  NoDup l -> NoDup (firstn a (skipn b l)).
Proof.
  intros H. rewrite <- (firstn_skipn b l) in H.
  apply NoDup_app_remove_l in H.
  rewrite <- (firstn_skipn a (skipn b l)) in H.
  now apply NoDup_app_remove_r in H.
Qed.

Lemma named_query_stacks_NoDup {backend : Backend} (data : ListData) (table : list Stack.t) :
  NoDup table -> NoDup (map row_stack (named_query data table)).
Proof.
  intros Hnd. unfold named_query, filter_by_name, filter_name_like.
  rewrite (optional_filter_eq (q_name data) (fun n r => row_name r =? n)).
  rewrite (optional_filter_eq (q_like data)
             (fun l r => sql_like (like_pattern l) (row_name r))).
  rewrite filter_twice.
  set (G := fun s : Stack.t =>
              match q_name data with
              | Some n => (n =? "") || (Stack.name s =? n)
              | None => true
              end
              && match q_like data with
                 | Some l => (l =? "") || sql_like (like_pattern l) (Stack.name s)
                 | None => true
                 end).
  change (NoDup (map row_stack
                   (filter (fun a => G (row_stack a))
                      (order_by_name_desc (query_Stack table))))).
  rewrite <- filter_map_swap. apply NoDup_filter.
  apply (Permutation_NoDup
           (Permutation_map row_stack
              (RowSort.Permuted_sort (query_Stack table)))).
  unfold query_Stack. rewrite map_map. simpl. now rewrite map_id.
Qed.

(** X15. Without a packages filter and on a table whose rows are all
    different, a page holds exactly what is left of the total after the
    pages before it, up to the page size: [min(rows_per_page, total -
    rows_per_page * (page - 1))] stacks, and none when that is negative. *)
Theorem query_stacks_page_length {backend : Backend} (data : ListData) (table : list Stack.t)
    (res : ListResult) :
  q_packages data = [] ->
  NoDup table ->
  query_stacks data table = inr res ->
  Z.of_nat (List.length (stacks res))
  = Z.max 0 (Z.min (rows_per_page res)
                   (total res - rows_per_page res * (page res - 1))).
Proof.
  intros Hp Hnd H. apply query_stacks_inr in H.
  destruct H as [Hnz [Hoff [Hpos ->]]]. simpl. unfold all, count, filtered_query.
  rewrite Hp. simpl.
  set (q := named_query data table).
  set (o := (q_rows_per_page data * (q_page data - 1))%Z) in *.
  rewrite unique_list_id.
  - rewrite length_map, length_firstn, length_skipn. lia.
  - rewrite <- firstn_map, <- skipn_map. apply NoDup_page.
    now apply named_query_stacks_NoDup.
Qed.

Lemma query_stacks_page_length_witness :
  Z.of_nat (List.length [abc_stack])
  = Z.max 0 (Z.min 10 (1 - 10 * (1 - 1))).
Proof.
  apply (query_stacks_page_length (backend := nocase_like) (mkListData None (Some "a_c") [] 1 10)
           [abc_stack] (mkListResult [abc_stack] 1 1 10 1)).
  - reflexivity.
  - repeat constructor. intros [].
  - reflexivity.
Defined.

(** ** The like filter and texts that occur in a name *)

Lemma query_stacks_first_page {backend : Backend} (data : ListData) (table : list Stack.t)
    (res : ListResult) :
  query_stacks data table = inr res ->
  q_page data = 1%Z ->
  (total res <= q_rows_per_page data)%Z ->
  stacks res = unique_list (map row_stack (filtered_query data table)).
Proof.
  intros H Hpage Htot. apply query_stacks_inr in H.
  destruct H as [_ [_ [_ ->]]]. simpl in *. unfold all. rewrite Hpage.
  replace (q_rows_per_page data * (1 - 1))%Z with 0%Z by lia. simpl.
  now rewrite firstn_all2 by (unfold count in Htot; lia).
Qed.

(** X16. The like filter misses no stack whose name holds the text: on the
    first page of a request with a like text alone (without backslash, and
    whatever else it holds, [%] and [_] included), when the total fits the
    page, every stack of the table in whose name the text occurs is
    returned. *)
Theorem query_stacks_like_finds {backend : Backend} (data : ListData) (table : list Stack.t)
    (res : ListResult) (like : string) (s : Stack.t) :
  query_stacks data table = inr res ->
  q_name data = None ->
  q_like data = Some like ->
  q_packages data = [] ->
  no_backslash like = true ->
  q_page data = 1%Z ->
  (total res <= q_rows_per_page data)%Z ->
  In s table ->
  substring_of like (Stack.name s) ->
  In s (stacks res).
Proof.
  intros H Hn Hl Hp Hb Hpage Htot Hs Hsub.
  rewrite (query_stacks_first_page data table res H Hpage Htot).
  apply unique_list_In, filtered_query_In.
  split; [exact Hs|]. split; [|split].
  - intros n Hn'. congruence.
  - intros l Hl' _. rewrite Hl in Hl'. injection Hl' as <-.
    apply sql_like_exact; [now rewrite no_backslash_pattern|].
    now apply like_pattern_contains.
  - intros Hne. now elim Hne.
Qed.

Lemma query_stacks_like_finds_witness :
  In desktop_stack [desktop_stack].
Proof.
  apply (query_stacks_like_finds (backend := nocase_like) (mkListData None (Some "skt") [] 1 10)
           [desktop_stack; web_stack]
           (mkListResult [desktop_stack] 1 1 10 1) "skt" desktop_stack);
    try reflexivity.
  - vm_compute. discriminate.
  - now left.
  - exists "de", "op". reflexivity.
Defined.

(** ** Listing by name and looking up by name *)

Lemma named_rows_unique (n : string) (table : list Stack.t) :
  names_unique table ->
  filter (fun x => Stack.name x =? n) table
  = match Stack.get n table with
    | Some s => [s]
    | None => []
    end.
Proof.
  unfold names_unique, Stack.get.
  induction table as [|a table IH]; simpl; [reflexivity|].
  intros H. inversion H as [|x l Hnotin Hnd]; subst.
  destruct (Stack.name a =? n) eqn:E.
  - apply String.eqb_eq in E. subst n. f_equal.
    assert (Hnone : Stack.get (Stack.name a) table = None)
      by now apply get_None_names.
    rewrite IH by assumption. unfold Stack.get in Hnone. now rewrite Hnone.
  - now apply IH.
Qed.

Lemma query_by_name_rows {backend : Backend} (n : string) (rpp pg : Z) (table : list Stack.t) :
  n <> "" ->
  names_unique table ->
  filtered_query (mkListData (Some n) None [] pg rpp) table
  = match Stack.get n table with
    | Some s => [mkRow s None]
    | None => []
    end.
Proof.
  intros Hn Hu. unfold filtered_query, named_query. simpl.
  apply String.eqb_neq in Hn. rewrite Hn. unfold filter_by_name.
  pose proof (Permutation_filter (fun r => row_name r =? n) _ _
                (RowSort.Permuted_sort (query_Stack table))) as Hperm.
  unfold query_Stack in Hperm at 1. rewrite filter_map_swap in Hperm.
  unfold row_name in Hperm at 1. simpl in Hperm.
  rewrite (named_rows_unique n table Hu) in Hperm.
  unfold order_by_name_desc.
  destruct (Stack.get n table) as [s|]; simpl in Hperm.
  - now apply Permutation_length_1_inv in Hperm.
  - now apply Permutation_nil in Hperm.
Qed.

Lemma ceil_div_one (rpp : Z) : (1 <= rpp)%Z -> (- (- 1 / rpp) = 1)%Z.
Proof.
  intros H. rewrite <- (Z.div_unique (- 1) rpp (- 1) (rpp - 1)); lia.
Qed.

Lemma query_one_row {backend : Backend} (n : string) (rpp : Z) (table : list Stack.t)
    (res : ListResult) :
  n <> "" ->
  names_unique table ->
  (1 <= rpp)%Z ->
  match Stack.get n table with
  | Some s => res = mkListResult [s] 1 1 rpp 1
  | None => res = mkListResult [] 1 0 rpp 0
  end ->
  ((rpp <= max_int64)%Z ->
   query_stacks (mkListData (Some n) None [] 1 rpp) table = inr res)
  /\ ((max_int64 < rpp)%Z ->
      exists e, query_stacks (mkListData (Some n) None [] 1 rpp) table = inl e).
Proof.
  intros Hn Hu Hr Hrows. unfold query_stacks.
  rewrite (query_by_name_rows n rpp 1 table Hn Hu). simpl q_page.
  simpl q_rows_per_page. unfold ceil_div, offset, limit.
  destruct (Z.eqb_spec rpp 0) as [E | _]; [lia|].
  replace (rpp * (1 - 1))%Z with 0%Z by lia. simpl skipn.
  destruct (Z.ltb_spec rpp 0) as [L | _]; [lia|].
  split; intros Hm.
  - destruct (Z.ltb_spec max_int64 rpp) as [M | _]; [lia|].
    destruct (Z.to_nat rpp) as [|k] eqn:Ek; [lia|].
    destruct (Stack.get n table) as [s|]; rewrite Hrows; simpl.
    + rewrite firstn_nil. simpl. now rewrite (ceil_div_one rpp Hr).
    + reflexivity.
  - destruct (Z.ltb_spec max_int64 rpp) as [_ | M]; [|lia].
    destruct (Stack.get n table); simpl; now eexists.
Qed.

(** X17. On a table with unique names, listing by an exact, non-empty name
    agrees with the lookup by name: for a page size within the 64 bits of a
    database integer the first page holds the one stack [Stack.get] finds,
    with a total of 1 and 1 page, or nothing, with a total of 0 and 0
    pages, when there is no such stack; for a larger page size the view
    raises. *)
Theorem query_stacks_by_name {backend : Backend} (n : string) (rpp : Z) (table : list Stack.t) :
  n <> "" ->
  (1 <= rpp)%Z ->
  names_unique table ->
  ((rpp <= max_int64)%Z ->
   query_stacks (mkListData (Some n) None [] 1 rpp) table
   = inr match Stack.get n table with
         | Some s => mkListResult [s] 1 1 rpp 1
         | None => mkListResult [] 1 0 rpp 0
         end)
  /\ ((max_int64 < rpp)%Z ->
      exists e, query_stacks (mkListData (Some n) None [] 1 rpp) table = inl e).
Proof.
  intros Hn Hr Hu.
  apply (query_one_row n rpp table); trivial.
  now destruct (Stack.get n table).
Qed.

Lemma query_stacks_by_name_witness :
  query_stacks (backend := nocase_like) (mkListData (Some "web") None [] 1 10) [desktop_stack; web_stack]
  = inr (mkListResult [web_stack] 1 1 10 1).
Proof.
  apply (proj1 (query_stacks_by_name (backend := nocase_like) "web" 10
                  [desktop_stack; web_stack]
                  ltac:(discriminate) ltac:(vm_compute; discriminate)
                  ltac:(unfold names_unique; simpl; repeat constructor; simpl;
                        intuition discriminate))).
  vm_compute. discriminate.
Defined.

Lemma save_stack_keeps_unique
    (merge : list string -> list string -> list string)
    (data : SaveData) (user : User) (r : Request) :
  db_pending r = [] ->
  names_unique (db_table r) ->
  names_unique (db_table (snd (save_stack merge data user r))).
Proof.
  intros Hpend Hu. unfold names_unique in *.
  destruct (Stack.get (data_name data) (db_table r)) as [s|] eqn:Hget.
  - rewrite (save_stack_found merge data user r s Hget).
    destruct (may_modify user s); simpl; [|exact Hu].
    now rewrite write_rows_names.
  - rewrite (save_stack_fresh merge data user r Hget). simpl.
    rewrite Hpend. simpl. rewrite write_rows_names, map_app. simpl.
    apply NoDup_rev in Hu. rewrite <- (rev_involutive (_ ++ _)).
    apply NoDup_rev. rewrite rev_app_distr. simpl. constructor; [|exact Hu].
    rewrite <- in_rev. now apply get_None_names.
Qed.

(** X18. What is saved is listed: after a save that went through, on a
    table with unique names and in a session that had nothing pending, the
    list of the stacks of the (non-empty) name of the request is the stack
    the save returned, alone, for a page size within the 64 bits of a
    database integer; for a larger page size the view raises. *)
Theorem query_stacks_after_save {backend : Backend}
    (merge : list string -> list string -> list string)
    (data : SaveData) (user : User) (r r' : Request) (s' : Stack.t) (rpp : Z) :
  save_stack merge data user r = (Some s', r') ->
  db_pending r = [] ->
  names_unique (db_table r) ->
  data_name data <> "" ->
  (1 <= rpp)%Z ->
  ((rpp <= max_int64)%Z ->
   query_stacks (mkListData (Some (data_name data)) None [] 1 rpp) (db_table r')
   = inr (mkListResult [s'] 1 1 rpp 1))
  /\ ((max_int64 < rpp)%Z ->
      exists e,
        query_stacks (mkListData (Some (data_name data)) None [] 1 rpp) (db_table r')
        = inl e).
Proof.
  intros Hs Hpend Hu Hn Hr.
  pose proof (save_stack_keeps_unique merge data user r Hpend Hu) as Hu'.
  rewrite Hs in Hu'. simpl in Hu'.
  pose proof (save_stack_row _ _ _ _ _ _ Hs) as Hrow.
  apply (query_one_row (data_name data) rpp (db_table r')); trivial.
  now rewrite Hrow.
Qed.

Lemma query_stacks_after_save_witness :
  query_stacks (backend := nocase_like) (mkListData (Some "mail") None [] 1 10)
    (db_table (snd (save_stack reconciled mail_data mallory web_request)))
  = inr (mkListResult
           [apply_save reconciled mail_data (Stack.mk "mail" None [] ["mallory"] [])]
           1 1 10 1).
Proof.
  apply (proj1 (query_stacks_after_save (backend := nocase_like) reconciled
                  mail_data mallory web_request
                  (snd (save_stack reconciled mail_data mallory web_request))
                  (apply_save reconciled mail_data
                     (Stack.mk "mail" None [] ["mallory"] [])) 10
                  eq_refl eq_refl
                  ltac:(unfold names_unique; simpl; repeat constructor; intros [])
                  ltac:(discriminate) ltac:(vm_compute; discriminate))).
  vm_compute. discriminate.
Defined.
